(** * super-porto: cross-chain message monitor and swap-bridge-swap workflow

    A shallow embedding of [src/lib/CrossChainMonitor.ts],
    [src/lib/SuperchainSwapService.ts], [src/lib/DexRouters.ts] and
    [src/lib/ProductionPortoProvider.ts], and the properties of the
    specification that are about them.

    Conventions of the embedding.
    - A viem [Hex] value (an address, a hash, a topic, log data) is the list
      of bytes its canonical lower-case hexadecimal text denotes; [===] on
      two such values is equality of the byte lists.
    - A [bigint] is a [Z].  A JavaScript [number] that the code obtains from
      [parseInt] is a [number]: [NaN] or an integer-valued double.  Chain
      ids of the configuration are integers.
    - An [async] method is a function from the world (clock, timers,
      provider call log) to an outcome and a new world.  RPC answers are
      taken from an environment and may depend on the time of the request.
    - A thrown value is an [Error]; [Result] is the outcome of a call that
      may throw. *)

From Stdlib Require Import ZArith List String Ascii Lia Bool.
From Stdlib.Strings Require Import Byte.
From stdpp Require Import base option gmap.
Import ListNotations.
Open Scope Z_scope.

(** ** Bytes and hexadecimal text *)

Module Bytes.

Definition nibble (c : ascii) : option Z :=
  let n := Z.of_N (N_of_ascii c) in
  if (48 <=? n) && (n <=? 57) then Some (n - 48)
  else if (97 <=? n) && (n <=? 102) then Some (n - 87)
  else if (65 <=? n) && (n <=? 70) then Some (n - 55)
  else None.

Definition byte_of_Z (z : Z) : byte :=
  match Byte.of_N (Z.to_N (z mod 256)) with
  | Some b => b
  | None => x00
  end.

Definition Z_of_byte (b : byte) : Z := Z.of_N (Byte.to_N b).

(** The bytes written by a string of hexadecimal digits (no [0x] prefix). *)
Fixpoint unhex (s : string) : list byte :=
  match s with
  | String a (String b rest) =>
      match nibble a, nibble b with
      | Some h, Some l => byte_of_Z (16 * h + l) :: unhex rest
      | _, _ => []
      end
  | _ => []
  end.

Definition bytes_of_string (s : string) : list byte :=
  map byte_of_ascii (list_ascii_of_string s).

(** Big-endian value of a byte string: [BigInt("0x..")]. *)
Definition be_value (bs : list byte) : Z :=
  fold_left (fun acc b => 256 * acc + Z_of_byte b) bs 0.

(** The [n] low bytes of [z], most significant first. *)
Fixpoint be_bytes (n : nat) (z : Z) : list byte :=
  match n with
  | O => []
  | S n' => be_bytes n' (z / 256) ++ [byte_of_Z z]
  end.

Fixpoint bytes_eqb (a b : list byte) : bool :=
  match a, b with
  | [], [] => true
  | x :: a', y :: b' => Byte.eqb x y && bytes_eqb a' b'
  | _, _ => false
  end.

End Bytes.

(** ** Keccak-256, the hash behind viem's [keccak256] *)

Module Keccak.
Import Bytes.

Definition w64 : Z := 2 ^ 64.

Definition rotl (a n : Z) : Z :=
  Z.lor (Z.shiftl a n mod w64) (Z.shiftr a (64 - n)).

(** The state is 25 lanes of 64 bits; lane (x, y) sits at index x + 5 y. *)
Definition lane (st : list Z) (x y : nat) : Z :=
  nth (x mod 5 + 5 * (y mod 5))%nat st 0.

Definition RC : list Z :=
  [0x0000000000000001; 0x0000000000008082; 0x800000000000808A;
   0x8000000080008000; 0x000000000000808B; 0x0000000080000001;
   0x8000000080008081; 0x8000000000008009; 0x000000000000008A;
   0x0000000000000088; 0x0000000080008009; 0x000000008000000A;
   0x000000008000808B; 0x800000000000008B; 0x8000000000008089;
   0x8000000000008003; 0x8000000000008002; 0x8000000000000080;
   0x000000000000800A; 0x800000008000000A; 0x8000000080008081;
   0x8000000000008080; 0x0000000080000001; 0x8000000080008008].

Definition ROT : list Z :=
  [ 0;  1; 62; 28; 27;
   36; 44;  6; 55; 20;
    3; 10; 43; 25; 39;
   41; 45; 15; 21;  8;
   18;  2; 61; 56; 14].

Definition coords : list (nat * nat) :=
  flat_map (fun y => map (fun x => (x, y)) (seq 0 5)) (seq 0 5).

Definition theta (st : list Z) : list Z :=
  let C x := fold_left Z.lxor (map (lane st x) (seq 0 5)) 0 in
  let D x := Z.lxor (C (x + 4)%nat) (rotl (C (x + 1)%nat) 1) in
  map (fun '(x, y) => Z.lxor (lane st x y) (D x)) coords.

(** rho and pi together: the lane written at (X, Y) is the rotated lane
    read at x = X + 3 Y, y = X. *)
Definition rho_pi (st : list Z) : list Z :=
  map (fun '(X, Y) =>
         let x := ((X + 3 * Y) mod 5)%nat in
         rotl (lane st x X) (nth (x + 5 * X)%nat ROT 0)) coords.

Definition chi (st : list Z) : list Z :=
  map (fun '(x, y) =>
         Z.lxor (lane st x y)
           (Z.land (Z.lxor (lane st (x + 1) y) (w64 - 1))
                   (lane st (x + 2) y))) coords.

Definition iota (rc : Z) (st : list Z) : list Z :=
  match st with
  | a :: rest => Z.lxor a rc :: rest
  | [] => []
  end.

Definition round (st : list Z) (rc : Z) : list Z :=
  iota rc (chi (rho_pi (theta st))).

Definition keccak_f (st : list Z) : list Z := fold_left round RC st.

(** Rate of Keccak-256 in bytes (1088 bits). *)
Definition rate : nat := 136.

Fixpoint le_word (bs : list byte) : Z :=
  match bs with
  | [] => 0
  | b :: r => Z_of_byte b + 256 * le_word r
  end.

Fixpoint lanes_of (n : nat) (bs : list byte) : list Z :=
  match n with
  | O => []
  | S n' => le_word (firstn 8 bs) :: lanes_of n' (skipn 8 bs)
  end.

Definition absorb (st : list Z) (block : list byte) : list Z :=
  keccak_f (map (fun '(a, b) => Z.lxor a b) (combine st (lanes_of 25 block))).

(** Multi-rate padding with the Keccak domain byte 0x01. *)
Definition pad (tail : list byte) : list byte :=
  let n := length tail in
  if Nat.eqb n (rate - 1) then tail ++ [x81]
  else tail ++ [x01] ++ repeat x00 (rate - 2 - n) ++ [x80].

Fixpoint sponge (fuel : nat) (st : list Z) (msg : list byte) : list Z :=
  match fuel with
  | O => st
  | S f =>
      if Nat.ltb (length msg) rate then absorb st (pad msg)
      else sponge f (absorb st (firstn rate msg)) (skipn rate msg)
  end.

Definition lane_bytes (a : Z) : list byte :=
  map (fun i => byte_of_Z (Z.shiftr a (8 * Z.of_nat i))) (seq 0 8).

Definition keccak256 (msg : list byte) : list byte :=
  let st := sponge (S (length msg / rate)) (repeat 0 25) msg in
  flat_map (fun i => lane_bytes (nth i st 0)) (seq 0 4).

End Keccak.

(** ** Outcomes and thrown values *)

(** What the code throws.  The constructors name the throw sites; the
    text of the JavaScript message is in the comment. *)
Inductive Error : Type :=
| NoClientConfigured (chainId : Z)
    (* Error(`No client configured for chain ${chainId}`) *)
| NoClientConfiguredForSource (chainId : Z)
    (* Error(`No client configured for source chain ${chainId}`) *)
| NoSentMessageEvents
    (* Error('No SentMessage events found in transaction') *)
| TimeoutWaitingForRelay
    (* Error('Timeout waiting for message relay') *)
| NoDexRouter (chainId : Z)
    (* Error(`No DEX router configured for chain ${chainId}`) *)
| NoRouterConfig (chainId : Z)
    (* Error(`No router config for chain ${chainId}`) *)
| UnsupportedDexType (ty : string)
    (* Error(`Unsupported DEX type: ${type}`) *)
| TokenNotFound (symbol : string) (chainId : Z)
    (* Error(`Token ${symbol} not found for chain ${chainId}`) *)
| JsTypeError        (* BigInt(undefined) *)
| JsSyntaxError      (* BigInt of a text that is no integer literal *)
| JsRangeError       (* BigInt(NaN) *)
| AbiInvalidAddress          (* viem InvalidAddressError *)
| AbiIntegerOutOfRange       (* viem IntegerOutOfRangeError *)
| AbiBytesSizeMismatch       (* viem AbiEncodingBytesSizeMismatchError *)
| RpcError (msg : string)        (* a read of the chain failed *)
| ExecutionError (msg : string). (* a contract write failed or reverted *)

Inductive Result (A : Type) : Type :=
| OK (a : A)
| Err (e : Error).
Arguments OK {A} a.
Arguments Err {A} e.

Definition is_OK {A} (r : Result A) : bool :=
  match r with OK _ => true | Err _ => false end.

(** ** JavaScript numbers produced by [parseInt] *)

Module JsNumber.
Import Bytes.

Inductive number : Type :=
| NaN
| Num (z : Z).

(** Nearest double of a non-negative integer, ties to even. *)
Definition round_double (n : Z) : Z :=
  if n <? 2 ^ 53 then n
  else
    let e := Z.log2 n - 52 in
    let q := n / 2 ^ e in
    let r := n mod 2 ^ e in
    let half := 2 ^ (e - 1) in
    let q' := if (half <? r) || ((r =? half) && Z.odd q) then q + 1 else q in
    q' * 2 ^ e.

(** [parseInt(text, 16)] of a hexadecimal text (with or without [0x]);
    an absent text reads as "undefined", an empty one as "": both [NaN]. *)
Definition parseInt16 (text : option (list byte)) : number :=
  match text with
  | None => NaN
  | Some [] => NaN
  | Some bs => Num (round_double (be_value bs))
  end.

(** [a * 2] and [a + b] on such numbers. *)
Definition times2 (a : number) : number :=
  match a with
  | NaN => NaN
  | Num z => Num (2 * z)
  end.

Definition plus (a b : number) : number :=
  match a, b with
  | Num x, Num y => Num (round_double (x + y))
  | _, _ => NaN
  end.

(** The index [String.prototype.slice] makes of an argument, for a text of
    [len] characters; the arguments here are never negative. *)
Definition slice_index (len : Z) (n : number) : Z :=
  match n with
  | NaN => 0
  | Num z => Z.min (Z.max z 0) len
  end.

(** [text.slice(from, to)] where [text] is the hexadecimal text of [h]
    without prefix: positions count hexadecimal digits, two a byte, and
    the positions the decoder uses are even. *)
Definition hex_slice (h : list byte) (from to : number) : list byte :=
  let len := 2 * Z.of_nat (length h) in
  let a := slice_index len from / 2 in
  let b := slice_index len to / 2 in
  firstn (Z.to_nat (b - a)) (skipn (Z.to_nat a) h).

End JsNumber.

(** ** viem's [encodeAbiParameters], for the parameter types the monitor uses *)

Module Abi.
Import Bytes.

Inductive AbiStatic : Type :=
| AUint256 (n : Z)
| AAddress (a : list byte)
| ABytes32 (b : list byte).

Inductive AbiValue : Type :=
| AStatic (s : AbiStatic)
| ABytes (b : list byte)
| ATuple (fields : list AbiStatic).

Definition word (n : Z) : list byte := be_bytes 32 n.

Definition pad_left (bs : list byte) : list byte :=
  repeat x00 (32 - length bs) ++ bs.

(** Zero bytes appended up to the next multiple of 32. *)
Definition pad_right (bs : list byte) : list byte :=
  bs ++ repeat x00 ((32 - length bs mod 32) mod 32).

Definition prepareStatic (s : AbiStatic) : Result (list byte) :=
  match s with
  | AUint256 n =>
      if (0 <=? n) && (n <? 2 ^ 256) then OK (word n)
      else Err AbiIntegerOutOfRange
  | AAddress a =>
      if Nat.eqb (length a) 20 then OK (pad_left a)
      else Err AbiInvalidAddress
  | ABytes32 b =>
      if Nat.eqb (length b) 32 then OK b
      else Err AbiBytesSizeMismatch
  end.

Fixpoint prepareStatics (fs : list AbiStatic) : Result (list byte) :=
  match fs with
  | [] => OK []
  | f :: rest =>
      match prepareStatic f with
      | Err e => Err e
      | OK enc =>
          match prepareStatics rest with
          | Err e => Err e
          | OK encs => OK (enc ++ encs)
          end
      end
  end.

(** A prepared parameter: whether it is dynamic, and its encoding. *)
Definition prepareParam (v : AbiValue) : Result (bool * list byte) :=
  match v with
  | AStatic s =>
      match prepareStatic s with
      | Err e => Err e
      | OK enc => OK (false, enc)
      end
  | ABytes b => OK (true, word (Z.of_nat (length b)) ++ pad_right b)
  | ATuple fs =>
      match prepareStatics fs with
      | Err e => Err e
      | OK enc => OK (false, enc)
      end
  end.

Fixpoint prepareParams (vs : list AbiValue) : Result (list (bool * list byte)) :=
  match vs with
  | [] => OK []
  | v :: rest =>
      match prepareParam v with
      | Err e => Err e
      | OK p =>
          match prepareParams rest with
          | Err e => Err e
          | OK ps => OK (p :: ps)
          end
      end
  end.

Definition staticSize (ps : list (bool * list byte)) : nat :=
  fold_left (fun (acc : nat) (p : bool * list byte) =>
               (acc + (if fst p then 32 else length (snd p)))%nat) ps O.

(** Heads then tails: a dynamic parameter leaves its offset in the head. *)
Fixpoint encodeParams_from (ssize : nat) (ps : list (bool * list byte))
    (heads tails : list byte) : list byte :=
  match ps with
  | [] => heads ++ tails
  | (true, enc) :: rest =>
      encodeParams_from ssize rest
        (heads ++ word (Z.of_nat (ssize + length tails))) (tails ++ enc)
  | (false, enc) :: rest =>
      encodeParams_from ssize rest (heads ++ enc) tails
  end.

Definition encodeParams (ps : list (bool * list byte)) : list byte :=
  encodeParams_from (staticSize ps) ps [] [].

Definition encodeAbiParameters (vs : list AbiValue) : Result (list byte) :=
  match prepareParams vs with
  | Err e => Err e
  | OK ps => OK (encodeParams ps)
  end.

End Abi.

(** ** Data model of the monitor ([CrossChainMonitor.ts]) *)

Definition Hex := list byte.
Definition Address := list byte.
Definition Hash := list byte.

Record MessageIdentifier : Type := {
  origin : Address;
  blockNumber : Z;
  logIndex : Z;
  timestamp : Z;
  chainId : Z
}.

Record SentMessage : Type := {
  destination : JsNumber.number;
  target : Address;
  nonce : Z;
  sender : Address;
  message : Hex
}.

Inductive State : Type := sent | relayed | failed | expired.

(** The texts the monitor stores in [MessageStatus.error]. *)
Inductive StatusError : Type :=
| NoClientForDestination      (* 'No client for destination chain' *)
| ChainConfigNotFound         (* 'Chain config not found' *)
| RelayFailedOnDestination    (* 'Message relay failed on destination chain' *)
| ErrorCheckingRelayStatus (e : Error).
                              (* `Error checking relay status: ${error}` *)

Record MessageStatus : Type := {
  messageHash : Hash;
  identifier : MessageIdentifier;
  status : State;
  txHash : Hash;
  relayTxHash : option Hash;
  error : option StatusError;
  observedAt : Z   (* the field [timestamp]: Date.now() in milliseconds *)
}.

(** viem's [Log], [TransactionReceipt] and [Block], the fields that are read. *)
Record Log : Type := {
  log_address : Address;
  log_topics : list Hex;
  log_data : Hex;
  log_blockNumber : option Z;
  log_logIndex : option Z;
  log_transactionHash : option Hash
}.

Record Receipt : Type := {
  receipt_logs : list Log;
  receipt_blockNumber : Z
}.

Record Block : Type := {
  block_timestamp : Z
}.

Record Chain : Type := {
  chain_id : Z;
  chain_name : string
}.

Record ChainConfig : Type := {
  cfg_chainId : Z;
  cfg_chain : Chain;
  cfg_rpcUrl : string;
  cfg_messengerAddress : Address;
  cfg_inboxAddress : Address
}.

Record CrossChainMonitorConfig : Type := {
  chains : list ChainConfig;
  cfg_pollingInterval : option Z;   (* milliseconds *)
  cfg_messageExpiry : option Z      (* seconds *)
}.

(** What [createPublicClient({chain, transport: http(rpcUrl)})] returns. *)
Record PublicClient : Type := {
  client_chain : Chain;
  client_rpcUrl : string
}.

(** ** The message codec *)

Module Codec.
Import Bytes Keccak JsNumber Abi.

Definition SENT_MESSAGE_SIGNATURE : Hash :=
  Eval vm_compute in unhex "382409ac69001e11931a28435afef442cbfd20d9891907e8fa373ba7d351f320".
Definition RELAYED_MESSAGE_SIGNATURE : Hash :=
  Eval vm_compute in unhex "4641df4a962071e12719d8c8c8e5ac7fc4d97b927346a3d7a335b1f7517e133c".
Definition FAILED_RELAYED_MESSAGE_SIGNATURE : Hash :=
  Eval vm_compute in unhex "99d0e048484baa1b1540b1367cb128acd7ab2946d1ed91ec10e3c85e4bf51b8f".

(** [log.topics[i] === h]; an absent topic equals nothing. *)
Definition topic_is (log : Log) (i : nat) (h : Hash) : bool :=
  match log_topics log !! i with
  | Some t => bytes_eqb t h
  | None => false
  end.

(** [BigInt(n)] of a number. *)
Definition BigInt_of_number (n : number) : Result Z :=
  match n with
  | NaN => Err JsRangeError
  | Num z => OK z
  end.

(** The values [encodeAbiParameters] accepts as [uint256] and [address]. *)
Definition uint256 (n : Z) : Prop := 0 <= n < 2 ^ 256.
Definition address (a : list byte) : Prop := length a = 20%nat.

Definition valid_identifier (id : MessageIdentifier) : Prop :=
  address (origin id) /\ uint256 (blockNumber id) /\ uint256 (logIndex id)
  /\ uint256 (timestamp id) /\ uint256 (chainId id).

(** A decoded message with an integer destination [dest]. *)
Definition valid_message (m : SentMessage) (dest : Z) : Prop :=
  destination m = Num dest /\ uint256 dest /\ address (target m)
  /\ uint256 (nonce m) /\ address (sender m).

Definition identifier_tuple (id : MessageIdentifier) : AbiValue :=
  ATuple [AAddress (origin id); AUint256 (blockNumber id);
          AUint256 (logIndex id); AUint256 (timestamp id);
          AUint256 (chainId id)].

Definition calculateMessageHash (id : MessageIdentifier) (m : SentMessage)
    : Result Hash :=
  match BigInt_of_number (destination m) with
  | Err e => Err e
  | OK dest =>
      match encodeAbiParameters
              [AStatic (ABytes32 SENT_MESSAGE_SIGNATURE);
               AStatic (AUint256 dest);
               AStatic (AAddress (target m));
               AStatic (AUint256 (nonce m));
               AStatic (AAddress (sender m));
               ABytes (message m)] with
      | Err e => Err e
      | OK inner =>
          let msgHash := keccak256 inner in
          match encodeAbiParameters
                  [identifier_tuple id; AStatic (ABytes32 msgHash)] with
          | Err e => Err e
          | OK outer => OK (keccak256 outer)
          end
      end
  end.

(** Topics: [signature, destination, target, nonce]; data: [sender, message].
    When [topics[2]] is absent the source builds the text "0xundefined" for
    the target; [topics[3]] is then absent as well and [BigInt(undefined)]
    throws, so that text is never returned. *)
Definition decodeSentMessage (log : Log) : Result SentMessage :=
  let destination := parseInt16 (log_topics log !! 1%nat) in
  let target := skipn 12 (default [] (log_topics log !! 2%nat)) in
  match log_topics log !! 3%nat with
  | None => Err JsTypeError
  | Some [] => Err JsSyntaxError
  | Some t3 =>
      let nonce := be_value t3 in
      let dataHex := log_data log in
      let senderHex := hex_slice dataHex (Num 0) (Num 64) in
      let sender := skipn 12 senderHex in
      let messageOffsetHex := hex_slice dataHex (Num 64) (Num 128) in
      let messageOffset := times2 (parseInt16 (Some messageOffsetHex)) in
      let messageLengthHex :=
        hex_slice dataHex messageOffset (plus messageOffset (Num 64)) in
      let messageLength := times2 (parseInt16 (Some messageLengthHex)) in
      let messageHex :=
        hex_slice dataHex (plus messageOffset (Num 64))
          (plus (plus messageOffset (Num 64)) messageLength) in
      OK {| destination := destination; target := target; nonce := nonce;
            sender := sender; message := messageHex |}
  end.

End Codec.

(** ** The world the asynchronous code runs in *)

Inductive BlockTag : Type :=
| Earliest
| Latest
| BlockNumber (n : Z).

(** A per-chain timer made by [setInterval]: its handle, the chain
    configuration and subscriber its closure captured, and its period. *)
Record Timer : Type := {
  timer_handle : nat;
  timer_chain : ChainConfig;
  timer_callback : option nat;
  timer_period : Z
}.

(** The calls made on the execution provider, oldest first (ghost state:
    the code keeps no such log). *)
Inductive ProviderCall : Type :=
| CalledExecuteLocal (chain : Z)
| CalledBridgeTokens (source dest : Z)
| CalledExecuteCrossChain (source dest : Z).

Record World : Type := {
  now : Z;                            (* Date.now(), milliseconds *)
  timers : list Timer;                (* the live interval timers *)
  next_handle : nat;                  (* the next timer handle *)
  delivered : list (nat * MessageStatus);
                                      (* statuses given to subscribers *)
  calls : list ProviderCall
}.

Definition set_now (t : Z) (w : World) : World :=
  {| now := t; timers := timers w; next_handle := next_handle w;
     delivered := delivered w; calls := calls w |}.

Definition set_timers (ts : list Timer) (n : nat) (w : World) : World :=
  {| now := now w; timers := ts; next_handle := n;
     delivered := delivered w; calls := calls w |}.

Definition add_delivered (d : nat * MessageStatus) (w : World) : World :=
  {| now := now w; timers := timers w; next_handle := next_handle w;
     delivered := delivered w ++ [d]; calls := calls w |}.

Definition add_call (c : ProviderCall) (w : World) : World :=
  {| now := now w; timers := timers w; next_handle := next_handle w;
     delivered := delivered w; calls := calls w ++ [c] |}.

(** A call prepared by viem's [encodeFunctionData], before encoding. *)
Inductive FunctionCall : Type :=
| ExactInputSingle (tokenIn tokenOut : string) (fee : Z) (recipient : string)
    (deadline amountIn amountOutMinimum sqrtPriceLimitX96 : Z)
| SwapExactTokensForTokens (amountIn amountOutMin : Z)
    (from to : string) (stable : bool) (factory : string)
    (recipient : string) (deadline : Z).

(** What lies outside the program: the chains behind the RPC endpoints,
    the account contract the provider writes to, viem's call encoder, and
    the time awaited operations take.  A request made at time [t] is
    answered from the chain as it is at [t]. *)
Record Env : Type := {
  getTransactionReceipt : PublicClient -> Hash -> Z -> Result Receipt;
  getBlock : PublicClient -> Z -> Z -> Result Block;
  getLogs : PublicClient -> Address -> option BlockTag -> option BlockTag ->
            Z -> Result (list Log);
  getBlockNumber : PublicClient -> Z -> Result Z;
  waitForTransactionReceipt : PublicClient -> Hash -> Z -> Result Receipt;
  (* contract.write.f([args]) on the account contract at an address *)
  write_execute :
    PublicClient -> string -> string -> Z -> Hex -> Z -> Result Hash;
  write_bridgeERC20 :
    PublicClient -> string -> string -> Z -> Z -> Z -> Result Hash;
  write_crossChainExecute :
    PublicClient -> string -> Z -> string -> Hex -> Z -> Result Hash;
  encodeFunctionData : FunctionCall -> Result Hex;
  latency : Z -> N;   (* how long a request made at a time takes *)
  lateness : Z -> N   (* how late a timeout set at a time fires *)
}.

(** A computation over a state that may throw. *)
Definition M (S A : Type) : Type := S -> Result A * S.

Definition ret {S A} (a : A) : M S A := fun s => (OK a, s).
Definition throw {S A} (e : Error) : M S A := fun s => (Err e, s).
Definition bind {S A B} (m : M S A) (k : A -> M S B) : M S B :=
  fun s =>
    match m s with
    | (OK a, s') => k a s'
    | (Err e, s') => (Err e, s')
    end.
Definition lift {S A} (r : Result A) : M S A := fun s => (r, s).

Notation "'let*' x ':=' m 'in' k" := (bind m (fun x => k))
  (at level 10, x pattern, m at level 100, k at level 200).

(** [try { m } catch (e) { h e }]. *)
Definition try_catch {S A} (m : M S A) (h : Error -> M S A) : M S A :=
  fun s =>
    match m s with
    | (OK a, s') => (OK a, s')
    | (Err e, s') => h e s'
    end.

(** A computation that changes nothing of the world but the clock, and
    never turns the clock back. *)
Definition reads_only {A} (m : M World A) : Prop :=
  forall w, exists t, now w <= t /\ snd (m w) = set_now t w.

(** A computation that only appends to the statuses delivered, each with
    property [P], and whose value, when it returns one, has property [Q]. *)
Definition emits {A} (P : MessageStatus -> Prop) (Q : A -> Prop)
    (m : M World A) : Prop :=
  forall w,
    (exists l, delivered (snd (m w)) = delivered w ++ l
               /\ Forall (fun d => P (snd d)) l)
    /\ (forall a, fst (m w) = OK a -> Q a).

(** A computation that never turns the clock back, changes neither the
    timers nor the provider's calls, and delivers statuses to the
    subscriber [callback] only. *)
Definition delivers_to {A} (callback : option nat) (m : M World A) : Prop :=
  forall w, exists t l,
    now w <= t
    /\ snd (m w) = {| now := t; timers := timers w;
                      next_handle := next_handle w;
                      delivered := delivered w ++ l; calls := calls w |}
    /\ Forall (fun d : nat * MessageStatus => Some (fst d) = callback) l.

Section Runtime.
Variable env : Env.

(** When a request made at [t] is answered. *)
Definition after (t : Z) : Z := t + Z.of_N (latency env t).

(** [await] of a request: answered as of the time it is made, the clock
    moves on by its latency. *)
Definition await {A} (request : Z -> Result A) : M World A :=
  fun w => (request (now w), set_now (after (now w)) w).

(** [Date.now()]. *)
Definition Date_now : M World Z := fun w => (OK (now w), w).

(** [await new Promise(resolve => setTimeout(resolve, ms))]. *)
Definition sleep (ms : Z) : M World unit :=
  fun w => (OK tt, set_now (now w + ms + Z.of_N (lateness env (now w))) w).

End Runtime.

(** ** The lifecycle monitor ([CrossChainMonitor.ts]) *)

Module Monitor.
Import Bytes JsNumber Codec.

Record CrossChainMonitor : Type := {
  clients : gmap Z PublicClient;
  config : CrossChainMonitorConfig;
  pollingInterval : Z;
  messageExpiry : Z;
  isMonitoring : bool;
  monitoringIntervals : list nat
}.

(** [x || d] on an optional number: absent and 0 are falsy. *)
Definition or_default (x : option Z) (d : Z) : Z :=
  match x with
  | Some v => if v =? 0 then d else v
  | None => d
  end.

Definition createPublicClient (chain : Chain) (rpcUrl : string) : PublicClient :=
  {| client_chain := chain; client_rpcUrl := rpcUrl |}.

(** The constructor. *)
Definition new (cfg : CrossChainMonitorConfig) : CrossChainMonitor :=
  {| clients :=
       fold_left
         (fun (m : gmap Z PublicClient) (c : ChainConfig) =>
            <[cfg_chainId c := createPublicClient (cfg_chain c) (cfg_rpcUrl c)]> m)
         (chains cfg) ∅;
     config := cfg;
     pollingInterval := or_default (cfg_pollingInterval cfg) 5000;
     messageExpiry := or_default (cfg_messageExpiry cfg) (7 * 24 * 60 * 60);
     isMonitoring := false;
     monitoringIntervals := [] |}.

(** [this.clients.get(n)] for a number [n]. *)
Definition clients_get (mon : CrossChainMonitor) (n : number)
    : option PublicClient :=
  match n with
  | NaN => None
  | Num z => clients mon !! z
  end.

(** What [checkRelayStatus] returns. *)
Record RelayStatus : Type := {
  isRelayed : bool;
  relay_status : State;    (* 'relayed' or 'failed' *)
  relay_txHash : option Hash;
  relay_error : option StatusError
}.

Definition is_relayed_for (h : Hash) (log : Log) : bool :=
  topic_is log 0 RELAYED_MESSAGE_SIGNATURE && topic_is log 1 h.

Definition is_failed_for (h : Hash) (log : Log) : bool :=
  topic_is log 0 FAILED_RELAYED_MESSAGE_SIGNATURE && topic_is log 1 h.

Definition is_sent (log : Log) : bool :=
  topic_is log 0 SENT_MESSAGE_SIGNATURE.

(** A log is a RelayedMessage (a FailedRelayedMessage) event whose first
    indexed topic is [h]. *)
Definition RelayedMessage_for (h : Hash) (log : Log) : Prop :=
  log_topics log !! 0%nat = Some RELAYED_MESSAGE_SIGNATURE
  /\ log_topics log !! 1%nat = Some h.

Definition FailedRelayedMessage_for (h : Hash) (log : Log) : Prop :=
  log_topics log !! 0%nat = Some FAILED_RELAYED_MESSAGE_SIGNATURE
  /\ log_topics log !! 1%nat = Some h.

(** The verdict on the destination messenger's logs. *)
Definition relay_verdict (relayedLogs : list Log) (h : Hash) : RelayStatus :=
  match List.find (is_relayed_for h) relayedLogs with
  | Some relayedMessage =>
      {| isRelayed := true; relay_status := relayed;
         relay_txHash := log_transactionHash relayedMessage;
         relay_error := None |}
  | None =>
      match List.find (is_failed_for h) relayedLogs with
      | Some failedMessage =>
          {| isRelayed := true; relay_status := failed;
             relay_txHash := log_transactionHash failedMessage;
             relay_error := Some RelayFailedOnDestination |}
      | None =>
          {| isRelayed := false; relay_status := failed;
             relay_txHash := None; relay_error := None |}
      end
  end.

Section WithEnv.
Variable env : Env.

Definition createMessageIdentifier (mon : CrossChainMonitor) (chain : Z)
    (log : Log) (blockNum : Z) : M World MessageIdentifier :=
  match clients mon !! chain with
  | None => throw JsTypeError   (* [get(chainId)!] was undefined *)
  | Some client =>
      let* block := await env (getBlock env client blockNum) in
      ret {| origin := log_address log;
             blockNumber := blockNum;
             logIndex := default 0 (log_logIndex log);
             timestamp := block_timestamp block;
             chainId := chain |}
  end.

Definition checkRelayStatus (mon : CrossChainMonitor)
    (destinationChainId : number) (h : Hash) : M World RelayStatus :=
  match clients_get mon destinationChainId with
  | None =>
      ret {| isRelayed := false; relay_status := failed;
             relay_txHash := None;
             relay_error := Some NoClientForDestination |}
  | Some client =>
      match List.find
              (fun c => match destinationChainId with
                        | Num z => cfg_chainId c =? z
                        | NaN => false
                        end) (chains (config mon)) with
      | None =>
          ret {| isRelayed := false; relay_status := failed;
                 relay_txHash := None;
                 relay_error := Some ChainConfigNotFound |}
      | Some chainConfig =>
          try_catch
            (let* relayedLogs :=
               await env (getLogs env client (cfg_messengerAddress chainConfig)
                            (Some Earliest) (Some Latest)) in
             ret (relay_verdict relayedLogs h))
            (fun e =>
               ret {| isRelayed := false; relay_status := failed;
                      relay_txHash := None;
                      relay_error := Some (ErrorCheckingRelayStatus e) |})
      end
  end.

(** The status as first built ('sent'), then as [checkRelayStatus] amends it. *)
Definition initial_status (h : Hash) (id : MessageIdentifier) (tx : Hash)
    (t : Z) : MessageStatus :=
  {| messageHash := h; identifier := id; status := sent; txHash := tx;
     relayTxHash := None; error := None; observedAt := t |}.

Definition apply_relay (st : MessageStatus) (rs : RelayStatus) : MessageStatus :=
  if isRelayed rs then
    {| messageHash := messageHash st; identifier := identifier st;
       status := relay_status rs; txHash := txHash st;
       relayTxHash := relay_txHash rs; error := relay_error rs;
       observedAt := observedAt st |}
  else st.

Definition monitorMessage (mon : CrossChainMonitor) (sourceChainId : Z)
    (tx : Hash) : M World MessageStatus :=
  match clients mon !! sourceChainId with
  | None => throw (NoClientConfigured sourceChainId)
  | Some client =>
      let* receipt := await env (getTransactionReceipt env client tx) in
      let sentMessageLogs := List.filter is_sent (receipt_logs receipt) in
      match sentMessageLogs with
      | [] => throw NoSentMessageEvents
      | log :: _ =>
          let* sentMessage := lift (decodeSentMessage log) in
          let* identifier :=
            createMessageIdentifier mon sourceChainId log
              (receipt_blockNumber receipt) in
          let* messageHash := lift (calculateMessageHash identifier sentMessage) in
          let* t := Date_now in
          let status := initial_status messageHash identifier tx t in
          match clients_get mon (destination sentMessage) with
          | Some _ =>
              let* relayStatus :=
                checkRelayStatus mon (destination sentMessage) messageHash in
              ret (apply_relay status relayStatus)
          | None => ret status
          end
      end
  end.

(** Transaction [tx] of chain [sourceChainId], read in world [w], holds a
    sent-message event: its first one decodes to [sm], is identified by
    [id] and hashes to [h]. *)
Definition observes (mon : CrossChainMonitor) (sourceChainId : Z) (tx : Hash)
    (w : World) (sm : SentMessage) (id : MessageIdentifier) (h : Hash) : Prop :=
  exists client receipt log rest block,
    clients mon !! sourceChainId = Some client
    /\ getTransactionReceipt env client tx (now w) = OK receipt
    /\ List.filter is_sent (receipt_logs receipt) = log :: rest
    /\ decodeSentMessage log = OK sm
    /\ getBlock env client (receipt_blockNumber receipt) (after env (now w))
       = OK block
    /\ id = {| origin := log_address log;
               blockNumber := receipt_blockNumber receipt;
               logIndex := default 0 (log_logIndex log);
               timestamp := block_timestamp block;
               chainId := sourceChainId |}
    /\ calculateMessageHash id sm = OK h.

(** [Promise.all] over tasks that only read the chain: every task starts
    in the world of the call and runs on its own; the tasks change nothing
    of the world but the clock, which ends at the latest completion.  A
    rejection, the earliest one, rejects the whole. *)
Definition earliest_rejection {A} (outcomes : list (Result A * World))
    : option (Error * World) :=
  fold_left
    (fun (acc : option (Error * World)) (o : Result A * World) =>
       match o, acc with
       | (Err e, w'), None => Some (e, w')
       | (Err e, w'), Some (e0, w0) =>
           if now w' <? now w0 then Some (e, w') else Some (e0, w0)
       | (OK _, _), _ => acc
       end) outcomes None.

Definition fulfilled {A} (outcomes : list (Result A * World)) : list A :=
  flat_map (fun o : Result A * World =>
              match fst o with OK a => [a] | Err _ => [] end) outcomes.

Definition Promise_all {A} (tasks : list (M World A)) : M World (list A) :=
  fun w =>
    let outcomes := map (fun task => task w) tasks in
    match earliest_rejection outcomes with
    | Some (e, w') => (Err e, set_now (now w') w)
    | None =>
        (OK (fulfilled outcomes),
         set_now (fold_left Z.max (map (fun o => now (snd o)) outcomes) (now w)) w)
    end.

(** The [async] closure mapped over the batch: the status, or [null]. *)
Definition monitor_or_null (mon : CrossChainMonitor) (m : Z * Hash)
    : M World (option MessageStatus) :=
  try_catch
    (let* st := monitorMessage mon (fst m) (snd m) in ret (Some st))
    (fun _ => ret None).

(** [statuses.filter(status => status !== null)]. *)
Definition not_null {A} (l : list (option A)) : list A :=
  flat_map (fun o => match o with Some a => [a] | None => [] end) l.

Definition getMessagesStatus (mon : CrossChainMonitor)
    (messages : list (Z * Hash)) : M World (list MessageStatus) :=
  let* statuses := Promise_all (map (monitor_or_null mon) messages) in
  ret (not_null statuses).

(** The statuses of the pairs for which [monitorMessage] succeeds, in the
    order of the batch. *)
Definition successes_in (mon : CrossChainMonitor) (messages : list (Z * Hash))
    (w : World) : list MessageStatus :=
  flat_map (fun m => match fst (monitorMessage mon (fst m) (snd m) w) with
                     | OK st => [st]
                     | Err _ => []
                     end) messages.

(** The pairs for which [monitorMessage] throws. *)
Definition failures_in (mon : CrossChainMonitor) (messages : list (Z * Hash))
    (w : World) : list (Z * Hash) :=
  List.filter
    (fun m => negb (is_OK (fst (monitorMessage mon (fst m) (snd m) w))))
    messages.

(** One turn of the [for] loop of [pollChainForMessages], with its
    [try]/[catch]. *)
Definition process_log (mon : CrossChainMonitor) (chainConfig : ChainConfig)
    (callback : option nat) (log : Log) : M World unit :=
  try_catch
    (let* sentMessage := lift (decodeSentMessage log) in
     let* blockNum :=
       lift (match log_blockNumber log with
             | Some n => OK n
             | None => Err JsTypeError
             end) in
     let* identifier :=
       createMessageIdentifier mon (cfg_chainId chainConfig) log blockNum in
     let* messageHash := lift (calculateMessageHash identifier sentMessage) in
     let* t := Date_now in
     let status :=
       initial_status messageHash identifier
         (default [] (log_transactionHash log)) t in
     let* relayStatus :=
       checkRelayStatus mon (destination sentMessage) messageHash in
     let status' := apply_relay status relayStatus in
     match callback with
     | Some cb => fun w => (OK tt, add_delivered (cb, status') w)
     | None => ret tt
     end)
    (fun _ => ret tt).

Fixpoint for_each {A} (body : A -> M World unit) (l : list A) : M World unit :=
  match l with
  | [] => ret tt
  | a :: rest => let* _ := body a in for_each body rest
  end.

Definition pollChainForMessages (mon : CrossChainMonitor)
    (chainConfig : ChainConfig) (callback : option nat) : M World unit :=
  try_catch
    (match clients mon !! cfg_chainId chainConfig with
     | None => throw JsTypeError
     | Some client =>
         let* latestBlockNumber := await env (getBlockNumber env client) in
         let fromBlock := latestBlockNumber - 10 in
         let* logs :=
           await env (getLogs env client (cfg_messengerAddress chainConfig)
                        (Some (BlockNumber fromBlock)) None) in
         let sentMessageLogs := List.filter is_sent logs in
         for_each (process_log mon chainConfig callback) sentMessageLogs
     end)
    (fun _ => ret tt).

(** What an interval timer runs each period. *)
Definition tick (mon : CrossChainMonitor) (t : Timer) : M World unit :=
  try_catch (pollChainForMessages mon (timer_chain t) (timer_callback t))
            (fun _ => ret tt).

(** [status.status === 'relayed' || status.status === 'failed']. *)
Definition resolved (st : MessageStatus) : bool :=
  match status st with
  | relayed | failed => true
  | _ => false
  end.

(** The [while] loop of [waitForRelay]; [None] when [fuel] turns do not
    reach its end. *)
Fixpoint waitForRelay_loop (fuel : nat) (mon : CrossChainMonitor)
    (sourceChainId : Z) (tx : Hash) (timeoutMs startTime : Z) (w : World)
    : option (Result MessageStatus * World) :=
  match fuel with
  | O => None
  | S fuel' =>
      if now w - startTime <? timeoutMs then
        match monitorMessage mon sourceChainId tx w with
        | (Err e, w1) => Some (Err e, w1)
        | (OK st, w1) =>
            if resolved st then Some (OK st, w1)
            else
              waitForRelay_loop fuel' mon sourceChainId tx timeoutMs startTime
                (snd (sleep env 2000 w1))
        end
      else Some (Err TimeoutWaitingForRelay, w)
  end.

(** The world after a turn of that loop that did not end it. *)
Definition poll_round (mon : CrossChainMonitor) (sourceChainId : Z)
    (tx : Hash) (w : World) : World :=
  snd (sleep env 2000 (snd (monitorMessage mon sourceChainId tx w))).

Definition waitForRelay (fuel : nat) (mon : CrossChainMonitor)
    (sourceChainId : Z) (tx : Hash) (timeoutMs : option Z) (w : World)
    : option (Result MessageStatus * World) :=
  waitForRelay_loop fuel mon sourceChainId tx
    (default (5 * 60 * 1000) timeoutMs) (now w) w.

End WithEnv.

(** Turns that suffice for a loop that sleeps [period] > 0 each turn and
    stops once [timeoutMs] has elapsed. *)
Definition rounds_bound (timeoutMs period : Z) : nat :=
  S (Z.to_nat (timeoutMs / period + 1)).

(** [setInterval]: a new live timer, and its handle. *)
Definition setInterval (chainConfig : ChainConfig) (callback : option nat)
    (period : Z) (w : World) : nat * World :=
  let h := next_handle w in
  (h, set_timers
        (timers w ++ [{| timer_handle := h; timer_chain := chainConfig;
                         timer_callback := callback; timer_period := period |}])
        (S h) w).

(** [clearInterval]. *)
Definition clearInterval (h : nat) (w : World) : World :=
  set_timers (List.filter (fun t => negb (Nat.eqb (timer_handle t) h)) (timers w))
    (next_handle w) w.

Definition set_monitoring (b : bool) (hs : list nat) (mon : CrossChainMonitor)
    : CrossChainMonitor :=
  {| clients := clients mon; config := config mon;
     pollingInterval := pollingInterval mon; messageExpiry := messageExpiry mon;
     isMonitoring := b; monitoringIntervals := hs |}.

(** The same monitor with another expiry duration. *)
Definition with_messageExpiry (x : Z) (mon : CrossChainMonitor)
    : CrossChainMonitor :=
  {| clients := clients mon; config := config mon;
     pollingInterval := pollingInterval mon; messageExpiry := x;
     isMonitoring := isMonitoring mon;
     monitoringIntervals := monitoringIntervals mon |}.

(** The monitor is an object the method updates in place: the method is a
    function of the monitor and the world to the new monitor and world. *)
Definition startMonitoring (callback : option nat)
    (s : CrossChainMonitor * World) : CrossChainMonitor * World :=
  let '(mon, w) := s in
  if isMonitoring mon then (mon, w)
  else
    fold_left
      (fun (acc : CrossChainMonitor * World) (chainConfig : ChainConfig) =>
         let '(m, w') := acc in
         let '(interval, w'') :=
           setInterval chainConfig callback (pollingInterval m) w' in
         (set_monitoring (isMonitoring m) (monitoringIntervals m ++ [interval]) m,
          w''))
      (chains (config mon))
      (set_monitoring true (monitoringIntervals mon) mon, w).

Definition stopMonitoring (s : CrossChainMonitor * World)
    : CrossChainMonitor * World :=
  let '(mon, w) := s in
  (set_monitoring false [] mon,
   fold_left (fun w' h => clearInterval h w') (monitoringIntervals mon) w).

End Monitor.

(** ** DEX routers and tokens ([DexRouters.ts]) *)

Module DexRouters.
Local Open Scope string_scope.

Record RouterConfig : Type := {
  router : string;
  router_name : string;
  router_type : string
}.

Definition DEX_ROUTERS (chain : Z) : option RouterConfig :=
  match chain with
  | 10 => Some {| router := "0xa062aE8A9c5e11aaA026fc2670B0D65cCc8B2858";
                  router_name := "Velodrome Router";
                  router_type := "velodrome" |}
  | 8453 => Some {| router := "0xcF77a3Ba9A5CA399B7c97c74d54e5b1Beb874E43";
                    router_name := "Aerodrome Router";
                    router_type := "aerodrome" |}
  | 1301 => Some {| router := "0x2626664c2603336E57B271c5C0b26F421741e481";
                    router_name := "Uniswap V4 Router";
                    router_type := "uniswap-v4" |}
  | 901 => Some {| router := "0x1111111111111111111111111111111111111111";
                   router_name := "Supersim Mock DEX A";
                   router_type := "uniswap-v3" |}
  | 902 => Some {| router := "0x2222222222222222222222222222222222222222";
                   router_name := "Supersim Mock DEX B";
                   router_type := "uniswap-v3" |}
  | _ => None
  end.

Definition SUPERCHAIN_TOKENS (symbol : string) : option (Z -> option string) :=
  if String.eqb symbol "USDC" then
    Some (fun chain =>
            match chain with
            | 10 => Some "0x0b2C639c533813f4Aa9D7837CAf62653d097Ff85"
            | 8453 => Some "0x833589fCD6eDb6E08f4c7C32D4f71b54bdA02913"
            | 1301 => Some "0xA0b86a33E6E8b0b1Ca0c6dFf0a7A6a8e7F0b4b1c"
            | _ => None
            end)
  else if String.eqb symbol "WETH" then
    Some (fun chain =>
            match chain with
            | 10 | 8453 | 1301 =>
                Some "0x4200000000000000000000000000000000000006"
            | _ => None
            end)
  else None.

Definition getRouterConfig (chain : Z) : option RouterConfig :=
  DEX_ROUTERS chain.

Definition getTokenAddress (symbol : string) (chain : Z) : option string :=
  match SUPERCHAIN_TOKENS symbol with
  | Some token => token chain
  | None => None
  end.

End DexRouters.

(** ** The execution provider ([ProductionPortoProvider.ts]) *)

Module Provider.
Import Bytes.

Record ProductionPortoProvider : Type := {
  provider_clients : gmap Z PublicClient;
  implementationAddress : string
}.

Definition hex_digit (n : Z) : ascii :=
  ascii_of_N (Z.to_N (if n <? 10 then 48 + n else 87 + n)).

(** The text of a [Hex] value: "0x" and two lower-case digits a byte. *)
Fixpoint hex_digits (bs : list byte) : string :=
  match bs with
  | [] => EmptyString
  | b :: rest =>
      String (hex_digit (Z_of_byte b / 16))
        (String (hex_digit (Z_of_byte b mod 16)) (hex_digits rest))
  end.

Definition hex_text (bs : list byte) : string :=
  String "0" (String "x" (hex_digits bs)).

(** The source compares [topics[0]] with the placeholder text '0x...'. *)
Definition extractMessageHashFromReceipt (receipt : Receipt) : option Hash :=
  match List.find
          (fun log => match log_topics log !! 0%nat with
                      | Some t => String.eqb (hex_text t) "0x..."
                      | None => false
                      end) (receipt_logs receipt) with
  | Some crossChainEvent => log_topics crossChainEvent !! 1%nat
  | None => None
  end.

Record CrossChainCall : Type := {
  call_chainId : Z;
  call_target : string;
  call_value : option Z;
  call_data : Hex
}.

(** [grouped.set(op.chainId, (grouped.get(op.chainId) || []).concat(op))]
    on a [Map], whose keys keep the order of their first insertion. *)
Fixpoint group_insert (op : CrossChainCall)
    (grouped : list (Z * list CrossChainCall)) : list (Z * list CrossChainCall) :=
  match grouped with
  | [] => [(call_chainId op, [op])]
  | (k, ops) :: rest =>
      if k =? call_chainId op then (k, ops ++ [op]) :: rest
      else (k, ops) :: group_insert op rest
  end.

(** What [group_insert] does to one group. *)
Definition add_to_group (op : CrossChainCall) (g : Z * list CrossChainCall)
    : Z * list CrossChainCall :=
  if fst g =? call_chainId op then (fst g, snd g ++ [op]) else g.

Definition groupOperationsByChain (operations : list CrossChainCall)
    : list (Z * list CrossChainCall) :=
  fold_left (fun grouped op => group_insert op grouped) operations [].

Section WithEnv.
Variable env : Env.

Definition record_call (c : ProviderCall) : M World unit :=
  fun w => (OK tt, add_call c w).

Definition executeLocal (p : ProductionPortoProvider) (chain : Z)
    (target : string) (value : Z) (data : Hex) : M World Hash :=
  let* _ := record_call (CalledExecuteLocal chain) in
  match provider_clients p !! chain with
  | None => throw (NoClientConfigured chain)
  | Some client =>
      await env (write_execute env client (implementationAddress p)
                   target value data)
  end.

Definition bridgeTokens (p : ProductionPortoProvider)
    (sourceChainId destinationChainId : Z) (token : string) (amount : Z)
    : M World Hash :=
  let* _ := record_call (CalledBridgeTokens sourceChainId destinationChainId) in
  match provider_clients p !! sourceChainId with
  | None => throw (NoClientConfiguredForSource sourceChainId)
  | Some client =>
      await env (write_bridgeERC20 env client (implementationAddress p)
                   token amount destinationChainId)
  end.

Definition executeCrossChain (p : ProductionPortoProvider)
    (sourceChainId destinationChainId : Z) (target : string) (data : Hex)
    : M World (Hash * option Hash) :=
  let* _ :=
    record_call (CalledExecuteCrossChain sourceChainId destinationChainId) in
  match provider_clients p !! sourceChainId with
  | None => throw (NoClientConfiguredForSource sourceChainId)
  | Some client =>
      let* tx :=
        await env (write_crossChainExecute env client (implementationAddress p)
                     destinationChainId target data) in
      let* receipt := await env (waitForTransactionReceipt env client tx) in
      ret (tx, extractMessageHashFromReceipt receipt)
  end.

(** [for (const x of xs) { results.push(await f(x)) }]: the first error
    ends the loop. *)
Fixpoint collect {A B} (f : A -> M World B) (xs : list A) : M World (list B) :=
  match xs with
  | [] => ret []
  | x :: rest =>
      let* r := f x in
      let* rs := collect f rest in
      ret (r :: rs)
  end.

(** The two nested loops of [executeCrossChainBatch]: the key of a group is
    passed as the source chain, the chain of the operation as destination. *)
Definition executeCrossChainBatch (p : ProductionPortoProvider)
    (operations : list CrossChainCall) : M World (list (Hash * option Hash)) :=
  let* perChain :=
    collect
      (fun group : Z * list CrossChainCall =>
         collect
           (fun op =>
              executeCrossChain p (fst group) (call_chainId op)
                (call_target op) (call_data op))
           (snd group))
      (groupOperationsByChain operations) in
  ret (concat perChain).

End WithEnv.
End Provider.

(** ** The workflow orchestrator ([SuperchainSwapService.ts]) *)

Module SwapService.
Import Bytes DexRouters Provider Monitor.

Record SwapBridgeSwapParams : Type := {
  sourceChain : Z;
  sourceTokenIn : string;
  sourceTokenOut : string;
  sourceAmountIn : Z;
  sourceMinAmountOut : Z;
  destinationChain : Z;
  destTokenIn : string;
  destTokenOut : string;
  destMinAmountOut : Z;
  recipient : string;
  slippageTolerance : Z;
  deadline : option Z
}.

Inductive OperationType : Type := swap | bridge | cross_chain_swap.
Inductive OperationStatus : Type := pending | completed | op_failed.

Record Operation : Type := {
  op_type : OperationType;
  op_chainId : Z;
  op_txHash : option Hash;
  op_messageHash : option Hash;
  op_status : OperationStatus
}.

Record SwapBridgeSwapResult : Type := {
  sourceSwapTx : Hash;
  bridgeTx : Hash;
  destSwapMessageHash : option Hash;   (* [messageHash!]: may be undefined *)
  estimatedTime : Z;
  operations : list Operation
}.

Record SuperchainSwapService : Type := {
  portoProvider : ProductionPortoProvider;
  monitor : CrossChainMonitor
}.

(** [toUpperCase] on a symbol written in ASCII. *)
Definition upper (c : ascii) : ascii :=
  let n := N_of_ascii c in
  if ((97 <=? n) && (n <=? 122))%N then ascii_of_N (n - 32) else c.

Fixpoint toUpperCase (s : string) : string :=
  match s with
  | EmptyString => EmptyString
  | String c rest => String (upper c) (toUpperCase rest)
  end.

Definition resolveTokenAddress (tokenOrSymbol : string) (chain : Z)
    : Result string :=
  if String.prefix "0x" tokenOrSymbol then OK tokenOrSymbol
  else
    match getTokenAddress (toUpperCase tokenOrSymbol) chain with
    | Some address => OK address
    | None => Err (TokenNotFound tokenOrSymbol chain)
    end.

Definition is_type (cfg : RouterConfig) (ty : string) : bool :=
  String.eqb (router_type cfg) ty.

Section WithEnv.
Variable env : Env.

Definition encodeSwapData (chain : Z) (tokenIn tokenOut : string)
    (amountIn amountOutMin : Z) (recipient : string) (deadline : Z)
    : Result Hex :=
  match getRouterConfig chain with
  | None => Err (NoRouterConfig chain)
  | Some routerConfig =>
      if is_type routerConfig "uniswap-v4" || is_type routerConfig "uniswap-v3"
      then
        encodeFunctionData env
          (ExactInputSingle tokenIn tokenOut 3000 recipient deadline
             amountIn amountOutMin 0)
      else if is_type routerConfig "velodrome"
              || is_type routerConfig "aerodrome"
      then
        encodeFunctionData env
          (SwapExactTokensForTokens amountIn amountOutMin tokenIn tokenOut
             false "0x25CbdDb98b35ab1FF77413456B31EC81A6B6B746"
             recipient deadline)
      else Err (UnsupportedDexType (router_type routerConfig))
  end.

(** Inside the [try] block the local array [operations] is part of the
    state, next to the world. *)
Definition Frame : Type := list Operation * World.

Definition in_world {A} (m : M World A) : M Frame A :=
  fun f => let '(r, w') := m (snd f) in (r, (fst f, w')).

Definition push (op : Operation) : M Frame unit :=
  fun f => (OK tt, (fst f ++ [op], snd f)).

Definition get_operations : M Frame (list Operation) :=
  fun f => (OK (fst f), f).

Definition mark_failed (op : Operation) : Operation :=
  match op_status op with
  | pending =>
      {| op_type := op_type op; op_chainId := op_chainId op;
         op_txHash := op_txHash op; op_messageHash := op_messageHash op;
         op_status := op_failed |}
  | _ => op
  end.

Definition router_or_throw (chain : Z) : Result RouterConfig :=
  match getRouterConfig chain with
  | Some cfg => OK cfg
  | None => Err (NoDexRouter chain)
  end.

(** The [try] block and its [catch]. *)
Definition swap_bridge_swap_steps (svc : SuperchainSwapService)
    (params : SwapBridgeSwapParams) (deadline : Z)
    (sourceTokenInAddr sourceTokenOutAddr destTokenInAddr destTokenOutAddr : string)
    : M Frame SwapBridgeSwapResult :=
  try_catch
    ((* Step 1: swap on the source chain *)
     let* sourceSwapData :=
       lift (encodeSwapData (sourceChain params) sourceTokenInAddr
               sourceTokenOutAddr (sourceAmountIn params)
               (sourceMinAmountOut params) (recipient params) deadline) in
     let* sourceRouterConfig := lift (router_or_throw (sourceChain params)) in
     let* sourceSwapTx :=
       in_world (executeLocal env (portoProvider svc) (sourceChain params)
                   (router sourceRouterConfig) 0 sourceSwapData) in
     let* _ :=
       push {| op_type := swap; op_chainId := sourceChain params;
               op_txHash := Some sourceSwapTx; op_messageHash := None;
               op_status := completed |} in
     (* Step 2: bridge the tokens *)
     let* bridgeTx :=
       in_world (bridgeTokens env (portoProvider svc) (sourceChain params)
                   (destinationChain params) sourceTokenOutAddr
                   (sourceMinAmountOut params)) in
     let* _ :=
       push {| op_type := bridge; op_chainId := sourceChain params;
               op_txHash := Some bridgeTx; op_messageHash := None;
               op_status := completed |} in
     (* Step 3: the destination swap, cross-chain *)
     let* destSwapData :=
       lift (encodeSwapData (destinationChain params) destTokenInAddr
               destTokenOutAddr (sourceMinAmountOut params)
               (destMinAmountOut params) (recipient params) deadline) in
     let* destRouterConfig := lift (router_or_throw (destinationChain params)) in
     let* destSwapResult :=
       in_world (executeCrossChain env (portoProvider svc) (sourceChain params)
                   (destinationChain params) (router destRouterConfig)
                   destSwapData) in
     let* _ :=
       push {| op_type := cross_chain_swap;
               op_chainId := destinationChain params;
               op_txHash := Some (fst destSwapResult);
               op_messageHash := snd destSwapResult;
               op_status := pending |} in
     let* ops := get_operations in
     ret {| sourceSwapTx := sourceSwapTx; bridgeTx := bridgeTx;
            destSwapMessageHash := snd destSwapResult;
            estimatedTime := 180; operations := ops |})
    (fun error => fun f => (Err error, (map mark_failed (fst f), snd f))).

(** [params.deadline || Math.floor(Date.now() / 1000) + 1800]. *)
Definition deadline_or_default (params : SwapBridgeSwapParams) (t : Z) : Z :=
  match deadline params with
  | Some d => if d =? 0 then t / 1000 + 1800 else d
  | None => t / 1000 + 1800
  end.

(** The whole method, with the local array as it is when the method ends. *)
Definition executeSwapBridgeSwap_frame (svc : SuperchainSwapService)
    (params : SwapBridgeSwapParams) : M Frame SwapBridgeSwapResult :=
  let* t := in_world Date_now in
  let deadline := deadline_or_default params t in
  let* sourceTokenInAddr :=
    lift (resolveTokenAddress (sourceTokenIn params) (sourceChain params)) in
  let* sourceTokenOutAddr :=
    lift (resolveTokenAddress (sourceTokenOut params) (sourceChain params)) in
  let* destTokenInAddr :=
    lift (resolveTokenAddress (destTokenIn params) (destinationChain params)) in
  let* destTokenOutAddr :=
    lift (resolveTokenAddress (destTokenOut params) (destinationChain params)) in
  swap_bridge_swap_steps svc params deadline sourceTokenInAddr
    sourceTokenOutAddr destTokenInAddr destTokenOutAddr.

(** What the caller gets: the result or the thrown error, and the world. *)
Definition executeSwapBridgeSwap (svc : SuperchainSwapService)
    (params : SwapBridgeSwapParams) : M World SwapBridgeSwapResult :=
  fun w =>
    let '(r, f) := executeSwapBridgeSwap_frame svc params ([], w) in
    (r, snd f).

(** The operations the caller holds once the method has ended: those of
    the returned result; a thrown error carries none. *)
Definition returned_operations (r : Result SwapBridgeSwapResult)
    : option (list Operation) :=
  match r with
  | OK result => Some (operations result)
  | Err _ => None
  end.

(** [result.operations.find(op => op.type === 'cross-chain-swap')?.chainId || 0]. *)
Definition cross_chain_swap_chain (result : SwapBridgeSwapResult) : Z :=
  match List.find
          (fun op => match op_type op with
                     | cross_chain_swap => true
                     | _ => false
                     end) (operations result) with
  | Some op => op_chainId op
  | None => 0
  end.

Definition monitorSwapBridgeSwap (svc : SuperchainSwapService)
    (result : SwapBridgeSwapResult) : M World (list MessageStatus) :=
  match destSwapMessageHash result with
  | Some h =>
      try_catch
        (let* st :=
           monitorMessage env (monitor svc) (cross_chain_swap_chain result) h in
         ret [st])
        (fun _ => ret [])
  | None => ret []
  end.

Definition is_relayed (st : MessageStatus) : bool :=
  match status st with relayed => true | _ => false end.

Definition is_failed (st : MessageStatus) : bool :=
  match status st with failed => true | _ => false end.

(** The [while] loop of [waitForCompletion]; [None] when [fuel] turns do
    not reach its end. *)
Fixpoint waitForCompletion_loop (fuel : nat) (svc : SuperchainSwapService)
    (result : SwapBridgeSwapResult) (timeoutMs startTime : Z) (w : World)
    : option (Result bool * World) :=
  match fuel with
  | O => None
  | S fuel' =>
      if now w - startTime <? timeoutMs then
        match monitorSwapBridgeSwap svc result w with
        | (Err e, w1) => Some (Err e, w1)
        | (OK statuses, w1) =>
            let allCompleted := forallb is_relayed statuses in
            if allCompleted then Some (OK true, w1)
            else
              let anyFailed := existsb is_failed statuses in
              if anyFailed then Some (OK false, w1)
              else
                waitForCompletion_loop fuel' svc result timeoutMs startTime
                  (snd (sleep env 5000 w1))
        end
      else Some (OK false, w)
  end.

(** The world after a turn of that loop that did not end it. *)
Definition completion_round (svc : SuperchainSwapService)
    (result : SwapBridgeSwapResult) (w : World) : World :=
  snd (sleep env 5000 (snd (monitorSwapBridgeSwap svc result w))).

Definition waitForCompletion (fuel : nat) (svc : SuperchainSwapService)
    (result : SwapBridgeSwapResult) (timeoutMs : option Z) (w : World)
    : option (Result bool * World) :=
  waitForCompletion_loop fuel svc result (default 300000 timeoutMs) (now w) w.

End WithEnv.
End SwapService.

(** ** A concrete deployment: two Supersim chains, 901 and 902 *)

Module Scenario.
Import Bytes Keccak JsNumber Abi Codec Monitor DexRouters Provider SwapService.

Definition messenger : Address :=
  Eval vm_compute in unhex "4200000000000000000000000000000000000023".
Definition inbox : Address :=
  Eval vm_compute in unhex "4200000000000000000000000000000000000022".

Definition chainA : ChainConfig :=
  {| cfg_chainId := 901;
     cfg_chain := {| chain_id := 901; chain_name := "Supersim L2 A" |};
     cfg_rpcUrl := "http://127.0.0.1:9545";
     cfg_messengerAddress := messenger; cfg_inboxAddress := inbox |}.

Definition chainB : ChainConfig :=
  {| cfg_chainId := 902;
     cfg_chain := {| chain_id := 902; chain_name := "Supersim L2 B" |};
     cfg_rpcUrl := "http://127.0.0.1:9546";
     cfg_messengerAddress := messenger; cfg_inboxAddress := inbox |}.

(** Both chains configured, messages expire after one second. *)
Definition cfgAB : CrossChainMonitorConfig :=
  {| chains := [chainA; chainB]; cfg_pollingInterval := Some 5000;
     cfg_messageExpiry := Some 1 |}.

(** Only the source chain configured. *)
Definition cfgA : CrossChainMonitorConfig :=
  {| chains := [chainA]; cfg_pollingInterval := None;
     cfg_messageExpiry := None |}.

Definition monAB : CrossChainMonitor := Monitor.new cfgAB.
Definition monA : CrossChainMonitor := Monitor.new cfgA.

Definition txAA : Hash := Eval vm_compute in repeat xaa 32.
Definition txBB : Hash := Eval vm_compute in repeat xbb 32.
Definition txCC : Hash := Eval vm_compute in repeat xcc 32.
Definition txDD : Hash := Eval vm_compute in repeat xdd 32.

(** A message to chain 902, sent in transaction [txAA] on chain 901. *)
Definition sentLog : Log :=
  {| log_address := messenger;
     log_topics :=
       [SENT_MESSAGE_SIGNATURE; word 902;
        pad_left (unhex "1111111111111111111111111111111111111111"); word 7];
     log_data :=
       pad_left (unhex "2222222222222222222222222222222222222222")
       ++ word 64 ++ word 3 ++ pad_right (unhex "010203");
     log_blockNumber := Some 5; log_logIndex := Some 0;
     log_transactionHash := Some txAA |}.

(** A log of another event, in transaction [txBB]. *)
Definition otherLog : Log :=
  {| log_address := messenger;
     log_topics := [RELAYED_MESSAGE_SIGNATURE; word 1];
     log_data := []; log_blockNumber := Some 6; log_logIndex := Some 0;
     log_transactionHash := Some txBB |}.

Definition receiptAA : Receipt :=
  {| receipt_logs := [otherLog; sentLog]; receipt_blockNumber := 5 |}.
Definition receiptBB : Receipt :=
  {| receipt_logs := [otherLog]; receipt_blockNumber := 6 |}.

Definition msgAA : SentMessage :=
  {| destination := Num 902;
     target := unhex "1111111111111111111111111111111111111111";
     nonce := 7;
     sender := unhex "2222222222222222222222222222222222222222";
     message := unhex "010203" |}.

Definition idAA : MessageIdentifier :=
  {| origin := messenger; blockNumber := 5; logIndex := 0;
     timestamp := 1700000000; chainId := 901 |}.

Definition hashAA : Hash :=
  Eval vm_compute in
    match calculateMessageHash idAA msgAA with
    | OK h => h
    | Err _ => []
    end.

Definition relayedLog : Log :=
  {| log_address := messenger;
     log_topics := [RELAYED_MESSAGE_SIGNATURE; hashAA];
     log_data := []; log_blockNumber := Some 9; log_logIndex := Some 2;
     log_transactionHash := Some txCC |}.

Definition failedLog : Log :=
  {| log_address := messenger;
     log_topics := [FAILED_RELAYED_MESSAGE_SIGNATURE; hashAA];
     log_data := []; log_blockNumber := Some 9; log_logIndex := Some 3;
     log_transactionHash := Some txDD |}.

(** The chains, given what the messenger of chain 902 has logged at each
    time and what the account contract answers to [execute]. *)
Definition chains_with (destLogs : Z -> list Log) (execute : Result Hash)
    : Env :=
  {| getTransactionReceipt := fun _ h _ =>
       if bytes_eqb h txAA then OK receiptAA
       else if bytes_eqb h txBB then OK receiptBB
       else Err (RpcError "transaction receipt not found");
     getBlock := fun _ _ _ => OK {| block_timestamp := 1700000000 |};
     getLogs := fun c _ _ _ t =>
       if chain_id (client_chain c) =? 902 then OK (destLogs t)
       else OK [otherLog; sentLog];
     getBlockNumber := fun _ _ => OK 15;
     waitForTransactionReceipt := fun _ _ _ => OK receiptAA;
     write_execute := fun _ _ _ _ _ _ => execute;
     write_bridgeERC20 := fun _ _ _ _ _ _ => OK txBB;
     write_crossChainExecute := fun _ _ _ _ _ _ => OK txAA;
     encodeFunctionData := fun _ => OK (unhex "414bf389");
     latency := fun _ => 100%N;
     lateness := fun _ => 3%N |}.

Definition in_flight : Env := chains_with (fun _ => [otherLog]) (OK txAA).
Definition once_relayed : Env :=
  chains_with (fun _ => [otherLog; failedLog; relayedLog]) (OK txAA).
Definition once_failed : Env :=
  chains_with (fun _ => [otherLog; failedLog]) (OK txAA).
(** The relay lands 2.5 seconds after the start. *)
Definition relayed_later : Env :=
  chains_with (fun t => if t <? 1700000102500 then [] else [relayedLog])
    (OK txAA).
Definition swap_reverts : Env :=
  chains_with (fun _ => []) (Err (ExecutionError "execution reverted")).

(** As [in_flight], but the RPC endpoint of chain 902 refuses the reads
    of its logs. *)
Definition destination_down : Env :=
  {| getTransactionReceipt := getTransactionReceipt in_flight;
     getBlock := getBlock in_flight;
     getLogs := fun c a from to t =>
       if chain_id (client_chain c) =? 902
       then Err (RpcError "connection refused")
       else getLogs in_flight c a from to t;
     getBlockNumber := getBlockNumber in_flight;
     waitForTransactionReceipt := waitForTransactionReceipt in_flight;
     write_execute := write_execute in_flight;
     write_bridgeERC20 := write_bridgeERC20 in_flight;
     write_crossChainExecute := write_crossChainExecute in_flight;
     encodeFunctionData := encodeFunctionData in_flight;
     latency := latency in_flight;
     lateness := lateness in_flight |}.

Definition start : World :=
  {| now := 1700000100000; timers := []; next_handle := 0;
     delivered := []; calls := [] |}.

Definition provider : ProductionPortoProvider :=
  {| provider_clients :=
       <[902 := createPublicClient (cfg_chain chainB) (cfg_rpcUrl chainB)]>
         (<[901 := createPublicClient (cfg_chain chainA) (cfg_rpcUrl chainA)]> ∅);
     implementationAddress := "0x5FbDB2315678afecb367f032d93F642f64180aa3" |}.

Definition service : SuperchainSwapService :=
  {| portoProvider := provider; monitor := monAB |}.

Definition swapParams : SwapBridgeSwapParams :=
  {| sourceChain := 901;
     sourceTokenIn := "0x4200000000000000000000000000000000000006";
     sourceTokenOut := "0x420beeF000000000000000000000000000000001";
     sourceAmountIn := 1000000; sourceMinAmountOut := 990000;
     destinationChain := 902;
     destTokenIn := "0x420beeF000000000000000000000000000000001";
     destTokenOut := "0x4200000000000000000000000000000000000006";
     destMinAmountOut := 980000;
     recipient := "0xf39Fd6e51aad88F6F4ce6aB8827279cffFb92266";
     slippageTolerance := 1; deadline := None |}.

(** A workflow result that tracks transaction [txAA] of chain 901. *)
Definition trackedResult : SwapBridgeSwapResult :=
  {| sourceSwapTx := txBB; bridgeTx := txCC;
     destSwapMessageHash := Some txAA; estimatedTime := 180;
     operations :=
       [{| op_type := cross_chain_swap; op_chainId := 901;
           op_txHash := Some txAA; op_messageHash := Some txAA;
           op_status := pending |}] |}.

End Scenario.

(** * Properties *)

(** ** The codec *)

Section CodecFacts.
Import Bytes Keccak JsNumber Abi Codec.

Lemma bytes_eqb_eq (a b : list byte) : bytes_eqb a b = true <-> a = b.
Proof.
  revert b; induction a as [|x a IH]; intros [|y b]; simpl; try easy.
  rewrite andb_true_iff, IH. split.
  - intros [Hxy ->]. apply Byte.byte_dec_bl in Hxy. now subst.
  - intros [= -> ->]. split; [apply Byte.byte_dec_lb|]; reflexivity.
Qed.

Lemma bytes_eqb_refl (a : list byte) : bytes_eqb a a = true.
Proof. now apply bytes_eqb_eq. Qed.

Lemma length_be_bytes (n : nat) (z : Z) : length (be_bytes n z) = n.
Proof.
  revert z; induction n as [|n IH]; intros z; simpl; [reflexivity|].
  rewrite length_app, IH. simpl. lia.
Qed.

Lemma length_word (z : Z) : length (word z) = 32%nat.
Proof. apply length_be_bytes. Qed.

Lemma length_pad_left_address (a : list byte) :
  address a -> length (pad_left a) = 32%nat.
Proof.
  unfold address, pad_left. intros H.
  rewrite length_app, repeat_length, H. reflexivity.
Qed.

Lemma length_lane_bytes (a : Z) : length (lane_bytes a) = 8%nat.
Proof. reflexivity. Qed.

Lemma keccak256_length (msg : list byte) : length (keccak256 msg) = 32%nat.
Proof.
  unfold keccak256.
  set (st := sponge _ _ _). clearbody st.
  cbn [seq flat_map]. rewrite !length_app, !length_lane_bytes. reflexivity.
Qed.

Lemma prepareStatic_uint256 (n : Z) :
  uint256 n -> prepareStatic (AUint256 n) = OK (word n).
Proof.
  unfold uint256, prepareStatic. intros [H0 H1].
  destruct (Z.leb_spec 0 n); [|lia].
  destruct (Z.ltb_spec n (2 ^ 256)); [reflexivity|lia].
Qed.

Lemma prepareStatic_address (a : list byte) :
  address a -> prepareStatic (AAddress a) = OK (pad_left a).
Proof. unfold address, prepareStatic. now intros ->. Qed.

Lemma prepareStatic_bytes32 (b : list byte) :
  length b = 32%nat -> prepareStatic (ABytes32 b) = OK b.
Proof. unfold prepareStatic. now intros ->. Qed.

Lemma encode_message (sig : list byte) (d : Z) (tgt : list byte) (n : Z)
    (snd_ msg : list byte) :
  length sig = 32%nat -> uint256 d -> address tgt -> uint256 n -> address snd_ ->
  encodeAbiParameters
    [AStatic (ABytes32 sig); AStatic (AUint256 d); AStatic (AAddress tgt);
     AStatic (AUint256 n); AStatic (AAddress snd_); ABytes msg]
  = OK (sig ++ word d ++ pad_left tgt ++ word n ++ pad_left snd_ ++ word 192
        ++ word (Z.of_nat (length msg)) ++ pad_right msg).
Proof.
  intros Hsig Hd Ht Hn Hs.
  unfold encodeAbiParameters. cbn [prepareParams prepareParam].
  rewrite (prepareStatic_bytes32 _ Hsig), !prepareStatic_uint256,
    !prepareStatic_address by assumption.
  unfold encodeParams. cbn [staticSize fold_left fst snd encodeParams_from].
  rewrite Hsig, !length_word, !length_pad_left_address by assumption.
  cbn [length Nat.add app]. 
  rewrite <- !app_assoc. reflexivity.
Qed.

Lemma encode_identified (id : MessageIdentifier) (h : list byte) :
  valid_identifier id -> length h = 32%nat ->
  encodeAbiParameters [identifier_tuple id; AStatic (ABytes32 h)]
  = OK (pad_left (origin id) ++ word (blockNumber id) ++ word (logIndex id)
        ++ word (timestamp id) ++ word (chainId id) ++ h).
Proof.
  intros (Ho & Hb & Hl & Ht & Hc) Hh.
  unfold encodeAbiParameters, identifier_tuple.
  cbn [prepareParams prepareParam prepareStatics].
  rewrite (prepareStatic_bytes32 _ Hh), !prepareStatic_uint256,
    !prepareStatic_address by assumption.
  unfold encodeParams. cbn [staticSize fold_left fst snd encodeParams_from].
  rewrite <- !app_assoc, app_nil_r. reflexivity.
Qed.

(** The event signatures are the Keccak-256 hashes the comments of the
    source name. *)
Example SENT_MESSAGE_SIGNATURE_is_hash :
  keccak256 (bytes_of_string "SentMessage(uint256,address,uint256,address,bytes)")
  = SENT_MESSAGE_SIGNATURE.
Proof. vm_compute. reflexivity. Qed.

Example RELAYED_MESSAGE_SIGNATURE_is_hash :
  keccak256 (bytes_of_string "RelayedMessage(bytes32)")
  = RELAYED_MESSAGE_SIGNATURE.
Proof. vm_compute. reflexivity. Qed.

Example FAILED_RELAYED_MESSAGE_SIGNATURE_is_hash :
  keccak256 (bytes_of_string "FailedRelayedMessage(bytes32)")
  = FAILED_RELAYED_MESSAGE_SIGNATURE.
Proof. vm_compute. reflexivity. Qed.

Example keccak256_empty :
  keccak256 []
  = unhex "c5d2460186f7233c927e7db2dcc703c0e500b653ca82273b7bfad8045d85a470".
Proof. vm_compute. reflexivity. Qed.

Lemma length_SENT_MESSAGE_SIGNATURE : length SENT_MESSAGE_SIGNATURE = 32%nat.
Proof. reflexivity. Qed.

(** C1.  For a valid identifier and message, [calculateMessageHash] is the
    Keccak-256 hash of the ABI encoding of (identifier tuple, inner hash),
    where the inner hash is the Keccak-256 hash of the ABI encoding of
    (SentMessage signature, destination, target, nonce, sender, payload);
    both encodings are the fixed-width left-padded words written out
    below; the result has 32 bytes and is a function of the two inputs
    alone. *)
Theorem calculateMessageHash_two_stage
    (id : MessageIdentifier) (m : SentMessage) (dest : Z) :
  valid_identifier id -> valid_message m dest ->
  let inner_encoding :=
    SENT_MESSAGE_SIGNATURE ++ word dest ++ pad_left (target m)
    ++ word (nonce m) ++ pad_left (sender m) ++ word 192
    ++ word (Z.of_nat (length (message m))) ++ pad_right (message m) in
  let inner := keccak256 inner_encoding in
  let outer_encoding :=
    pad_left (origin id) ++ word (blockNumber id) ++ word (logIndex id)
    ++ word (timestamp id) ++ word (chainId id) ++ inner in
  encodeAbiParameters
    [AStatic (ABytes32 SENT_MESSAGE_SIGNATURE); AStatic (AUint256 dest);
     AStatic (AAddress (target m)); AStatic (AUint256 (nonce m));
     AStatic (AAddress (sender m)); ABytes (message m)] = OK inner_encoding
  /\ encodeAbiParameters [identifier_tuple id; AStatic (ABytes32 inner)]
     = OK outer_encoding
  /\ calculateMessageHash id m = OK (keccak256 outer_encoding)
  /\ length (keccak256 outer_encoding) = 32%nat
  /\ (forall id' m', id' = id -> m' = m ->
      calculateMessageHash id' m' = OK (keccak256 outer_encoding)).
Proof.
  intros Hid (Hdest & Hd & Ht & Hn & Hs) inner_encoding inner outer_encoding.
  assert (Hin : encodeAbiParameters
    [AStatic (ABytes32 SENT_MESSAGE_SIGNATURE); AStatic (AUint256 dest);
     AStatic (AAddress (target m)); AStatic (AUint256 (nonce m));
     AStatic (AAddress (sender m)); ABytes (message m)] = OK inner_encoding)
    by (apply encode_message; auto using length_SENT_MESSAGE_SIGNATURE).
  assert (Hout : encodeAbiParameters
    [identifier_tuple id; AStatic (ABytes32 inner)] = OK outer_encoding)
    by (apply encode_identified; auto using keccak256_length).
  assert (Hhash : calculateMessageHash id m = OK (keccak256 outer_encoding)).
  { unfold calculateMessageHash. rewrite Hdest. cbn [BigInt_of_number].
    rewrite Hin. fold inner. rewrite Hout. reflexivity. }
  repeat split; auto using keccak256_length.
  intros id' m' -> ->. exact Hhash.
Qed.

Lemma calculateMessageHash_two_stage_witness :
  calculateMessageHash Scenario.idAA Scenario.msgAA = OK Scenario.hashAA.
Proof.
  destruct (calculateMessageHash_two_stage Scenario.idAA Scenario.msgAA 902)
    as (_ & _ & H & _).
  - repeat split; vm_compute; congruence.
  - repeat split; vm_compute; congruence.
  - rewrite H. vm_compute. reflexivity.
Defined.

End CodecFacts.

(** ** The monitor *)

Section MonitorFacts.
Import Bytes JsNumber Codec Monitor.
Variable env : Env.

Lemma topic_is_spec (log : Log) (i : nat) (h : Hash) :
  topic_is log i h = true <-> log_topics log !! i = Some h.
Proof.
  unfold topic_is. destruct (log_topics log !! i) as [t|].
  - rewrite bytes_eqb_eq. split; [intros ->; reflexivity|intros [= ->]; reflexivity].
  - split; discriminate.
Qed.

Lemma is_relayed_for_spec (h : Hash) (log : Log) :
  is_relayed_for h log = true <-> RelayedMessage_for h log.
Proof.
  unfold is_relayed_for, RelayedMessage_for.
  now rewrite andb_true_iff, !topic_is_spec.
Qed.

Lemma is_failed_for_spec (h : Hash) (log : Log) :
  is_failed_for h log = true <-> FailedRelayedMessage_for h log.
Proof.
  unfold is_failed_for, FailedRelayedMessage_for.
  now rewrite andb_true_iff, !topic_is_spec.
Qed.

(** [find] returns the first element that satisfies the test, if any does. *)
Lemma find_none_iff {A} (f : A -> bool) (P : A -> Prop) (l : list A) :
  (forall a, f a = true <-> P a) ->
  List.find f l = None <-> ~ Exists P l.
Proof.
  intros Hf. rewrite Stdlib.Lists.List.Exists_exists. split.
  - intros Hnone (a & Hin & Ha). apply Hf in Ha.
    pose proof (find_none f l Hnone a Hin). congruence.
  - intros Hno. destruct (List.find f l) as [a|] eqn:E; [|reflexivity].
    apply find_some in E as [Hin Ha]. exfalso. apply Hno.
    exists a. split; [assumption|now apply Hf].
Qed.

Lemma find_some_of_exists {A} (f : A -> bool) (P : A -> Prop) (l : list A) :
  (forall a, f a = true <-> P a) ->
  Exists P l -> exists a, List.find f l = Some a /\ In a l /\ P a.
Proof.
  intros Hf Hex. destruct (List.find f l) as [a|] eqn:E.
  - exists a. apply find_some in E as [Hin Ha]. repeat split; auto.
    now apply Hf.
  - exfalso. revert Hex. now apply (find_none_iff f P l Hf).
Qed.

(** What [monitorMessage] does once the sent-message event is read. *)
Lemma monitorMessage_observed (mon : CrossChainMonitor) (src : Z) (tx : Hash)
    (w : World) (sm : SentMessage) (id : MessageIdentifier) (h : Hash) :
  observes env mon src tx w sm id h ->
  let w2 := set_now (after env (after env (now w))) w in
  let st := initial_status h id tx (now w2) in
  monitorMessage env mon src tx w =
    match clients_get mon (destination sm) with
    | Some _ =>
        match checkRelayStatus env mon (destination sm) h w2 with
        | (OK rs, w3) => (OK (apply_relay st rs), w3)
        | (Err e, w3) => (Err e, w3)
        end
    | None => (OK st, w2)
    end.
Proof.
  intros (client & receipt & log & rest & block & Hc & Hr & Hf & Hd & Hb & Hid & Hh).
  intros w2 st. unfold monitorMessage. rewrite Hc.
  unfold bind at 1. unfold await at 1. rewrite Hr, Hf.
  unfold bind at 1. unfold lift at 1. rewrite Hd.
  unfold bind at 1. unfold createMessageIdentifier. rewrite Hc.
  unfold bind at 1. unfold await at 1. cbn [now set_now]. rewrite Hb.
  unfold ret at 1. rewrite <- Hid.
  unfold bind at 1. unfold lift at 1. rewrite Hh.
  unfold bind at 1. unfold Date_now at 1.
  destruct (clients_get mon (destination sm)); reflexivity.
Qed.

Lemma checkRelayStatus_probe (mon : CrossChainMonitor) (d : Z) (h : Hash)
    (w : World) (dclient : PublicClient) (dcfg : ChainConfig)
    (dlogs : list Log) :
  clients mon !! d = Some dclient ->
  List.find (fun c => cfg_chainId c =? d) (chains (config mon)) = Some dcfg ->
  getLogs env dclient (cfg_messengerAddress dcfg) (Some Earliest) (Some Latest)
    (now w) = OK dlogs ->
  checkRelayStatus env mon (Num d) h w
  = (OK (relay_verdict dlogs h), set_now (after env (now w)) w).
Proof.
  intros Hc Hf Hl. unfold checkRelayStatus. cbn [clients_get].
  rewrite Hc, Hf. unfold try_catch, bind, await. rewrite Hl. reflexivity.
Qed.

(** C2.  When the transaction holds a sent-message event whose destination
    chain is configured and the destination messenger's logs are read:
    the status is 'sent' (no relay hash, no error) if no log is a
    RelayedMessage or FailedRelayedMessage event for the computed hash;
    'relayed' with the transaction hash of a matching log if some log is a
    RelayedMessage event for the hash; and 'failed' with an error and the
    hash of a matching log if none is but some log is a
    FailedRelayedMessage event for it. *)
Theorem monitorMessage_probe_outcome (mon : CrossChainMonitor) (src : Z)
    (tx : Hash) (w : World) (sm : SentMessage) (id : MessageIdentifier)
    (h : Hash) (d : Z) (dclient : PublicClient) (dcfg : ChainConfig)
    (dlogs : list Log) :
  observes env mon src tx w sm id h ->
  destination sm = Num d ->
  clients mon !! d = Some dclient ->
  List.find (fun c => cfg_chainId c =? d) (chains (config mon)) = Some dcfg ->
  getLogs env dclient (cfg_messengerAddress dcfg) (Some Earliest) (Some Latest)
    (after env (after env (now w))) = OK dlogs ->
  exists st,
    fst (monitorMessage env mon src tx w) = OK st
    /\ messageHash st = h /\ txHash st = tx
    /\ (~ Exists (RelayedMessage_for h) dlogs ->
        ~ Exists (FailedRelayedMessage_for h) dlogs ->
        status st = sent /\ relayTxHash st = None /\ error st = None)
    /\ (Exists (RelayedMessage_for h) dlogs ->
        status st = relayed /\ error st = None
        /\ exists l, In l dlogs /\ RelayedMessage_for h l
                     /\ relayTxHash st = log_transactionHash l)
    /\ (~ Exists (RelayedMessage_for h) dlogs ->
        Exists (FailedRelayedMessage_for h) dlogs ->
        status st = failed /\ error st = Some RelayFailedOnDestination
        /\ exists l, In l dlogs /\ FailedRelayedMessage_for h l
                     /\ relayTxHash st = log_transactionHash l).
Proof.
  intros Hobs Hdest Hc Hf Hl.
  rewrite (monitorMessage_observed mon src tx w sm id h Hobs).
  rewrite Hdest. cbn [clients_get]. rewrite Hc.
  rewrite (checkRelayStatus_probe mon d h
             (set_now (after env (after env (now w))) w) dclient dcfg dlogs
             Hc Hf Hl).
  eexists. split; [reflexivity|].
  pose proof (find_none_iff (is_relayed_for h) (RelayedMessage_for h) dlogs
                (is_relayed_for_spec h)) as Hrel.
  pose proof (find_none_iff (is_failed_for h) (FailedRelayedMessage_for h) dlogs
                (is_failed_for_spec h)) as Hfail.
  assert (Hsome_rel : forall l, List.find (is_relayed_for h) dlogs = Some l ->
            In l dlogs /\ RelayedMessage_for h l).
  { intros l El. apply find_some in El as [Hin Hl']. split; [exact Hin|].
    now apply is_relayed_for_spec. }
  assert (Hsome_fail : forall l, List.find (is_failed_for h) dlogs = Some l ->
            In l dlogs /\ FailedRelayedMessage_for h l).
  { intros l El. apply find_some in El as [Hin Hl']. split; [exact Hin|].
    now apply is_failed_for_spec. }
  unfold relay_verdict, apply_relay.
  destruct (List.find (is_relayed_for h) dlogs) as [l|] eqn:El.
  - destruct (Hsome_rel l eq_refl) as [Hin Hl'].
    assert (Hex : Exists (RelayedMessage_for h) dlogs).
    { apply Stdlib.Lists.List.Exists_exists. exists l. now split. }
    cbn [isRelayed fst messageHash txHash status relayTxHash error
         initial_status relay_status relay_txHash relay_error].
    split; [reflexivity|]. split; [reflexivity|].
    split; [intros Hno; exfalso; exact (Hno Hex)|].
    split; [|intros Hno; exfalso; exact (Hno Hex)].
    intros _. split; [reflexivity|]. split; [reflexivity|].
    exists l. split; [exact Hin|]. split; [exact Hl'|reflexivity].
  - assert (Hno : ~ Exists (RelayedMessage_for h) dlogs)
      by (apply Hrel; reflexivity).
    destruct (List.find (is_failed_for h) dlogs) as [l|] eqn:Efl.
    + destruct (Hsome_fail l eq_refl) as [Hin Hl'].
      assert (Hex : Exists (FailedRelayedMessage_for h) dlogs).
      { apply Stdlib.Lists.List.Exists_exists. exists l. now split. }
      cbn [isRelayed fst messageHash txHash status relayTxHash error
           initial_status relay_status relay_txHash relay_error].
      split; [reflexivity|]. split; [reflexivity|].
      split; [intros _ Hnof; exfalso; exact (Hnof Hex)|].
      split; [intros Hyes; exfalso; exact (Hno Hyes)|].
      intros _ _. split; [reflexivity|]. split; [reflexivity|].
      exists l. split; [exact Hin|]. split; [exact Hl'|reflexivity].
    + assert (Hnof : ~ Exists (FailedRelayedMessage_for h) dlogs)
        by (apply Hfail; reflexivity).
      cbn [isRelayed fst messageHash txHash status relayTxHash error
           initial_status].
      split; [reflexivity|]. split; [reflexivity|].
      split; [intros _ _; repeat split|].
      split; [intros Hyes; exfalso; exact (Hno Hyes)|].
      intros _ Hyes; exfalso; exact (Hnof Hyes).
Qed.

(** C10.  When the decoded destination chain has no configured client,
    [monitorMessage] succeeds with state 'sent', no relay hash and no
    error; the destination is not probed: the call ends when the block of
    the event has been read. *)
Theorem monitorMessage_unconfigured_destination (mon : CrossChainMonitor)
    (src : Z) (tx : Hash) (w : World) (sm : SentMessage)
    (id : MessageIdentifier) (h : Hash) :
  observes env mon src tx w sm id h ->
  clients_get mon (destination sm) = None ->
  exists st,
    monitorMessage env mon src tx w
    = (OK st, set_now (after env (after env (now w))) w)
    /\ messageHash st = h /\ status st = sent
    /\ relayTxHash st = None /\ error st = None.
Proof.
  intros Hobs Hnone.
  rewrite (monitorMessage_observed mon src tx w sm id h Hobs), Hnone.
  eexists. split; [reflexivity|]. repeat split.
Qed.

(** C5.  When the receipt of the transaction has no log whose first topic
    is the SentMessage signature, [monitorMessage] throws the error
    'No SentMessage events found in transaction' to its caller and
    returns no status. *)
Theorem monitorMessage_no_sent_event (mon : CrossChainMonitor) (src : Z)
    (tx : Hash) (w : World) (client : PublicClient) (receipt : Receipt) :
  clients mon !! src = Some client ->
  getTransactionReceipt env client tx (now w) = OK receipt ->
  Forall (fun log => log_topics log !! 0%nat <> Some SENT_MESSAGE_SIGNATURE)
    (receipt_logs receipt) ->
  fst (monitorMessage env mon src tx w) = Err NoSentMessageEvents.
Proof.
  intros Hc Hr Hall. unfold monitorMessage. rewrite Hc.
  unfold bind at 1. unfold await at 1. rewrite Hr.
  assert (Hnil : List.filter is_sent (receipt_logs receipt) = []).
  { induction Hall as [|log logs Hlog _ IH]; [reflexivity|].
    cbn [List.filter]. rewrite IH.
    destruct (is_sent log) eqn:E; [|reflexivity].
    apply topic_is_spec in E. contradiction. }
  rewrite Hnil. reflexivity.
Qed.

End MonitorFacts.

Section MonitorWitnesses.
Import Bytes JsNumber Codec Monitor Scenario.

Lemma observes_txAA (env : Env) (mon : CrossChainMonitor) (w : World) :
  clients mon !! 901 = Some (createPublicClient (cfg_chain chainA) (cfg_rpcUrl chainA)) ->
  (forall c t, getTransactionReceipt env c txAA t = OK receiptAA) ->
  (forall c n t, getBlock env c n t = OK {| block_timestamp := 1700000000 |}) ->
  observes env mon 901 txAA w msgAA idAA hashAA.
Proof.
  intros Hc Hr Hb.
  exists (createPublicClient (cfg_chain chainA) (cfg_rpcUrl chainA)),
    receiptAA, sentLog, [], {| block_timestamp := 1700000000 |}.
  split; [exact Hc|]. split; [apply Hr|].
  split; [vm_compute; reflexivity|]. split; [vm_compute; reflexivity|].
  split; [apply Hb|]. split; vm_compute; reflexivity.
Qed.

Lemma monitorMessage_probe_outcome_witness :
  exists st,
    fst (monitorMessage once_relayed monAB 901 txAA start) = OK st
    /\ status st = relayed /\ relayTxHash st = Some txCC.
Proof.
  destruct (monitorMessage_probe_outcome once_relayed monAB 901 txAA start
              msgAA idAA hashAA 902
              (createPublicClient (cfg_chain chainB) (cfg_rpcUrl chainB))
              chainB [otherLog; failedLog; relayedLog])
    as (st & Hst & _ & _ & _ & Hrel & _).
  - apply observes_txAA; intros; vm_compute; reflexivity.
  - reflexivity.
  - vm_compute; reflexivity.
  - vm_compute; reflexivity.
  - vm_compute; reflexivity.
  - exists st. split; [exact Hst|].
    destruct Hrel as (Hs & _ & l & Hin & Hl & Htx).
    + apply Exists_cons_tl, Exists_cons_tl, Exists_cons_hd.
      split; vm_compute; reflexivity.
    + split; [exact Hs|]. rewrite Htx.
      destruct Hin as [<-|[<-|[<-|[]]]]; destruct Hl as [H0 H1];
        vm_compute in H0, H1; try discriminate H0; try discriminate H1.
      reflexivity.
Defined.

Lemma monitorMessage_unconfigured_destination_witness :
  exists st,
    fst (monitorMessage once_relayed monA 901 txAA start) = OK st
    /\ status st = sent /\ relayTxHash st = None /\ error st = None.
Proof.
  destruct (monitorMessage_unconfigured_destination once_relayed monA 901 txAA
              start msgAA idAA hashAA) as (st & Hst & _ & Hs & Hr & He).
  - apply observes_txAA; intros; vm_compute; reflexivity.
  - vm_compute; reflexivity.
  - exists st. rewrite Hst. split; [reflexivity|]. split; [exact Hs|].
    split; [exact Hr|exact He].
Defined.

Lemma monitorMessage_no_sent_event_witness :
  fst (monitorMessage in_flight monAB 901 txBB start) = Err NoSentMessageEvents.
Proof.
  apply (monitorMessage_no_sent_event in_flight monAB 901 txBB start
           (createPublicClient (cfg_chain chainA) (cfg_rpcUrl chainA))
           receiptBB).
  - vm_compute; reflexivity.
  - vm_compute; reflexivity.
  - constructor; [|constructor]. vm_compute. discriminate.
Defined.

End MonitorWitnesses.

(** ** Batches and waiting *)

Section BatchFacts.
Import Bytes JsNumber Codec Monitor.
Variable env : Env.

(** The closure mapped over a batch never throws. *)
Lemma monitor_or_null_outcome (mon : CrossChainMonitor) (m : Z * Hash)
    (w : World) :
  fst (monitor_or_null env mon m w)
  = OK match fst (monitorMessage env mon (fst m) (snd m) w) with
       | OK st => Some st
       | Err _ => None
       end.
Proof.
  unfold monitor_or_null, try_catch, bind, ret.
  destruct (monitorMessage env mon (fst m) (snd m) w) as [[st|e] w'];
    reflexivity.
Qed.

Lemma earliest_rejection_fulfilled {A} (outcomes : list (Result A * World)) :
  Forall (fun o => is_OK (fst o) = true) outcomes ->
  earliest_rejection outcomes = None.
Proof.
  unfold earliest_rejection. intros Hall.
  induction Hall as [|[[a|e] w'] rest Ho _ IH]; cbn [fold_left];
    [reflexivity|exact IH|discriminate Ho].
Qed.

Lemma Promise_all_fulfilled {A} (tasks : list (M World A)) (w : World) :
  Forall (fun task => is_OK (fst (task w)) = true) tasks ->
  fst (Promise_all tasks w)
  = OK (fulfilled (map (fun task => task w) tasks)).
Proof.
  intros Hall. unfold Promise_all.
  rewrite earliest_rejection_fulfilled; [reflexivity|].
  induction Hall; cbn [map]; constructor; assumption.
Qed.

Lemma successes_failures_length (mon : CrossChainMonitor)
    (messages : list (Z * Hash)) (w : World) :
  (length (successes_in env mon messages w) + length (failures_in env mon messages w)
   = length messages)%nat.
Proof.
  unfold successes_in, failures_in.
  induction messages as [|m rest IH]; [reflexivity|].
  cbn [flat_map List.filter].
  destruct (fst (monitorMessage env mon (fst m) (snd m) w)) as [st|e];
    cbn [is_OK negb app length]; lia.
Qed.

(** C3.  [getMessagesStatus] never throws: it returns exactly the statuses
    of the pairs for which [monitorMessage] succeeds, in order, the
    erroring entries dropped; with N pairs of which one fails it returns
    N-1 statuses. *)
Theorem getMessagesStatus_partial_success (mon : CrossChainMonitor)
    (messages : list (Z * Hash)) (w : World) :
  fst (getMessagesStatus env mon messages w)
  = OK (successes_in env mon messages w)
  /\ (length (successes_in env mon messages w)
      + length (failures_in env mon messages w) = length messages)%nat
  /\ (length (failures_in env mon messages w) = 1%nat ->
      length (successes_in env mon messages w) = (length messages - 1)%nat).
Proof.
  pose proof (successes_failures_length mon messages w) as Hlen.
  split; [|split; [exact Hlen|lia]].
  unfold getMessagesStatus, bind.
  pose proof (Promise_all_fulfilled (map (monitor_or_null env mon) messages) w)
    as Hall.
  destruct (Promise_all (map (monitor_or_null env mon) messages) w)
    as [r w'] eqn:E.
  cbn [fst] in Hall. rewrite Hall.
  - cbn [ret fst]. f_equal. unfold successes_in.
    clear. induction messages as [|m rest IH]; [reflexivity|].
    cbn [map fulfilled flat_map]. rewrite monitor_or_null_outcome.
    unfold not_null in *. rewrite flat_map_app. cbn [flat_map].
    unfold fulfilled in IH. rewrite IH.
    destruct (fst (monitorMessage env mon (fst m) (snd m) w)); reflexivity.
  - apply Stdlib.Lists.List.Forall_forall. intros task Hin.
    apply in_map_iff in Hin as (m & <- & _).
    now rewrite monitor_or_null_outcome.
Qed.

End BatchFacts.

(** ** The clock, and waiting for a relay *)

Section ClockFacts.
Import Bytes JsNumber Codec Monitor.
Variable env : Env.

Lemma set_now_set_now (t t' : Z) (w : World) :
  set_now t' (set_now t w) = set_now t' w.
Proof. reflexivity. Qed.

Lemma after_ge (t : Z) : t <= after env t.
Proof. unfold after. lia. Qed.

Lemma reads_only_ret {A} (a : A) : reads_only (ret a).
Proof. intros w. exists (now w). split; [lia|]. now destruct w. Qed.

Lemma reads_only_throw {A} (e : Error) : reads_only (@throw World A e).
Proof. intros w. exists (now w). split; [lia|]. now destruct w. Qed.

Lemma reads_only_lift {A} (r : Result A) : reads_only (lift r).
Proof. intros w. exists (now w). split; [lia|]. now destruct w. Qed.

Lemma reads_only_Date_now : reads_only Date_now.
Proof. intros w. exists (now w). split; [lia|]. now destruct w. Qed.

Lemma reads_only_await {A} (request : Z -> Result A) :
  reads_only (await env request).
Proof. intros w. exists (after env (now w)). split; [apply after_ge|reflexivity]. Qed.

Lemma reads_only_bind {A B} (m : M World A) (k : A -> M World B) :
  reads_only m -> (forall a, reads_only (k a)) -> reads_only (bind m k).
Proof.
  intros Hm Hk w. unfold bind. destruct (Hm w) as (t & Ht & Hw).
  destruct (m w) as [[a|e] w1]; cbn [snd] in Hw; subst w1.
  - destruct (Hk a (set_now t w)) as (t' & Ht' & Hw'). exists t'.
    cbn [now set_now] in Ht'. split; [lia|]. now rewrite Hw'.
  - exists t. now split.
Qed.

Lemma reads_only_try_catch {A} (m : M World A) (h : Error -> M World A) :
  reads_only m -> (forall e, reads_only (h e)) -> reads_only (try_catch m h).
Proof.
  intros Hm Hh w. unfold try_catch. destruct (Hm w) as (t & Ht & Hw).
  destruct (m w) as [[a|e] w1]; cbn [snd] in Hw; subst w1.
  - exists t. now split.
  - destruct (Hh e (set_now t w)) as (t' & Ht' & Hw'). exists t'.
    cbn [now set_now] in Ht'. split; [lia|]. now rewrite Hw'.
Qed.

Lemma reads_only_createMessageIdentifier (mon : CrossChainMonitor) (c : Z)
    (log : Log) (n : Z) : reads_only (createMessageIdentifier env mon c log n).
Proof.
  unfold createMessageIdentifier. destruct (clients mon !! c).
  - apply reads_only_bind; [apply reads_only_await|intros; apply reads_only_ret].
  - apply reads_only_throw.
Qed.

Lemma reads_only_checkRelayStatus (mon : CrossChainMonitor) (d : number)
    (h : Hash) : reads_only (checkRelayStatus env mon d h).
Proof.
  unfold checkRelayStatus. destruct (clients_get mon d); [|apply reads_only_ret].
  destruct (List.find _ _); [|apply reads_only_ret].
  apply reads_only_try_catch; [|intros; apply reads_only_ret].
  apply reads_only_bind; [apply reads_only_await|intros; apply reads_only_ret].
Qed.

Lemma reads_only_monitorMessage (mon : CrossChainMonitor) (src : Z) (tx : Hash) :
  reads_only (monitorMessage env mon src tx).
Proof.
  unfold monitorMessage. destruct (clients mon !! src); [|apply reads_only_throw].
  apply reads_only_bind; [apply reads_only_await|intros receipt].
  destruct (List.filter is_sent (receipt_logs receipt)) as [|log rest];
    [apply reads_only_throw|].
  apply reads_only_bind; [apply reads_only_lift|intros sm].
  apply reads_only_bind; [apply reads_only_createMessageIdentifier|intros id].
  apply reads_only_bind; [apply reads_only_lift|intros h].
  apply reads_only_bind; [apply reads_only_Date_now|intros t].
  destruct (clients_get mon (destination sm)); [|apply reads_only_ret].
  apply reads_only_bind; [apply reads_only_checkRelayStatus|intros].
  apply reads_only_ret.
Qed.

Lemma poll_round_advances (mon : CrossChainMonitor) (src : Z) (tx : Hash)
    (w : World) :
  now w + 2000 <= now (poll_round env mon src tx w).
Proof.
  unfold poll_round, sleep.
  destruct (reads_only_monitorMessage mon src tx w) as (t & Ht & ->).
  cbn [snd now set_now]. lia.
Qed.

Lemma rounds_bound_enough (timeout period : Z) (fuel : nat) :
  0 < period -> (rounds_bound timeout period <= fuel)%nat ->
  (0 < fuel)%nat /\ timeout <= period * (Z.of_nat fuel - 1).
Proof.
  unfold rounds_bound. intros Hp Hf. split; [lia|].
  destruct (Z.le_gt_cases 0 (timeout / period + 1)) as [Hq|Hq].
  - pose proof (Z.mul_succ_div_gt timeout period Hp). nia.
  - assert (timeout < 0).
    { destruct (Z.le_gt_cases 0 timeout) as [H0|H0]; [|lia].
      pose proof (Z.div_pos timeout period H0 Hp). lia. }
    nia.
Qed.

(** The loop ends within the turns its budget allows. *)
Lemma waitForRelay_loop_ends (mon : CrossChainMonitor) (src : Z) (tx : Hash)
    (timeout start : Z) (fuel : nat) (w : World) :
  (0 < fuel)%nat ->
  timeout - (now w - start) <= 2000 * (Z.of_nat fuel - 1) ->
  waitForRelay_loop env fuel mon src tx timeout start w <> None.
Proof.
  revert w. induction fuel as [|fuel IH]; intros w Hpos Hrem; [lia|].
  cbn [waitForRelay_loop].
  destruct (Z.ltb_spec (now w - start) timeout) as [Hlt|Hge]; [|discriminate].
  pose proof (poll_round_advances mon src tx w) as Hadv. unfold poll_round in Hadv.
  destruct (monitorMessage env mon src tx w) as [[st|e] w1] eqn:E;
    [|discriminate].
  destruct (resolved st); [discriminate|].
  cbn [snd] in Hadv. apply IH; lia.
Qed.

(** While every poll finds the message unresolved, the loop ends by the
    timeout error, no sooner than the budget has elapsed. *)
Lemma waitForRelay_loop_times_out (mon : CrossChainMonitor) (src : Z) (tx : Hash)
    (timeout start : Z) (fuel : nat) (w : World) :
  (forall j, exists st,
      fst (monitorMessage env mon src tx
             (Nat.iter j (poll_round env mon src tx) w)) = OK st
      /\ resolved st = false) ->
  (0 < fuel)%nat ->
  timeout - (now w - start) <= 2000 * (Z.of_nat fuel - 1) ->
  exists w',
    waitForRelay_loop env fuel mon src tx timeout start w
    = Some (Err TimeoutWaitingForRelay, w')
    /\ timeout <= now w' - start.
Proof.
  revert w. induction fuel as [|fuel IH]; intros w Hun Hpos Hrem; [lia|].
  cbn [waitForRelay_loop].
  destruct (Z.ltb_spec (now w - start) timeout) as [Hlt|Hge].
  - pose proof (poll_round_advances mon src tx w) as Hadv.
    destruct (Hun O) as (st & Hst & Hres). cbn [Nat.iter nat_rect] in Hst.
    assert (Hnext : forall j, exists st',
      fst (monitorMessage env mon src tx
             (Nat.iter j (poll_round env mon src tx)
                (poll_round env mon src tx w))) = OK st'
      /\ resolved st' = false).
    { intros j. specialize (Hun (S j)). now rewrite Nat.iter_succ_r in Hun. }
    destruct (monitorMessage env mon src tx w) as [r w1] eqn:E.
    cbn [fst] in Hst. subst r. rewrite Hres.
    assert (Hw1 : poll_round env mon src tx w = snd (sleep env 2000 w1))
      by (unfold poll_round; now rewrite E).
    rewrite <- Hw1. apply IH; [exact Hnext|lia|lia].
  - exists w. split; [reflexivity|lia].
Qed.

(** A poll made within the budget that finds the message resolved ends
    the loop with that status. *)
Lemma waitForRelay_loop_resolves (mon : CrossChainMonitor) (src : Z) (tx : Hash)
    (timeout start : Z) (k : nat) (st : MessageStatus) (w w' : World) :
  (forall j, (j < k)%nat ->
     now (Nat.iter j (poll_round env mon src tx) w) - start < timeout
     /\ exists st',
          fst (monitorMessage env mon src tx
                 (Nat.iter j (poll_round env mon src tx) w)) = OK st'
          /\ resolved st' = false) ->
  now (Nat.iter k (poll_round env mon src tx) w) - start < timeout ->
  monitorMessage env mon src tx (Nat.iter k (poll_round env mon src tx) w)
  = (OK st, w') ->
  resolved st = true ->
  forall fuel, (k < fuel)%nat ->
    waitForRelay_loop env fuel mon src tx timeout start w = Some (OK st, w').
Proof.
  revert w. induction k as [|k IH]; intros w Hbefore Hin Hpoll Hres fuel Hfuel;
    (destruct fuel as [|fuel]; [lia|]); cbn [waitForRelay_loop].
  - cbn [Nat.iter nat_rect] in Hin, Hpoll.
    destruct (Z.ltb_spec (now w - start) timeout); [|lia].
    now rewrite Hpoll, Hres.
  - destruct (Hbefore O ltac:(lia)) as (Hin0 & st0 & Hst0 & Hres0).
    cbn [Nat.iter nat_rect] in Hin0, Hst0.
    destruct (Z.ltb_spec (now w - start) timeout); [|lia].
    rewrite Nat.iter_succ_r in Hin, Hpoll.
    assert (Hnext : forall j, (j < k)%nat ->
      now (Nat.iter j (poll_round env mon src tx)
             (poll_round env mon src tx w)) - start < timeout
      /\ exists st',
           fst (monitorMessage env mon src tx
                  (Nat.iter j (poll_round env mon src tx)
                     (poll_round env mon src tx w))) = OK st'
           /\ resolved st' = false).
    { intros j Hj. specialize (Hbefore (S j) ltac:(lia)).
      now rewrite Nat.iter_succ_r in Hbefore. }
    specialize (IH (poll_round env mon src tx w) Hnext Hin Hpoll Hres fuel
                  ltac:(lia)).
    destruct (monitorMessage env mon src tx w) as [r w1] eqn:E.
    cbn [fst] in Hst0. subst r. rewrite Hres0.
    assert (Hw1 : poll_round env mon src tx w = snd (sleep env 2000 w1))
      by (unfold poll_round; now rewrite E).
    rewrite <- Hw1. exact IH.
Qed.

(** C4.  [waitForRelay] ends: with enough turns the loop returns.  While
    every poll finds the message neither relayed nor failed, it ends by
    throwing 'Timeout waiting for message relay', once the timeout has
    elapsed; when a poll made within the budget finds the message relayed
    or failed, it returns that status. *)
Theorem waitForRelay_times_out_or_resolves (mon : CrossChainMonitor) (src : Z)
    (tx : Hash) (timeoutMs : option Z) (w : World) :
  let timeout := default (5 * 60 * 1000) timeoutMs in
  let world_at j := Nat.iter j (poll_round env mon src tx) w in
  (forall fuel, (rounds_bound timeout 2000 <= fuel)%nat ->
     waitForRelay env fuel mon src tx timeoutMs w <> None)
  /\ ((forall j, exists st,
         fst (monitorMessage env mon src tx (world_at j)) = OK st
         /\ resolved st = false) ->
      forall fuel, (rounds_bound timeout 2000 <= fuel)%nat ->
        exists w',
          waitForRelay env fuel mon src tx timeoutMs w
          = Some (Err TimeoutWaitingForRelay, w')
          /\ timeout <= now w' - now w)
  /\ (forall k st w',
        (forall j, (j < k)%nat ->
           now (world_at j) - now w < timeout
           /\ exists st',
                fst (monitorMessage env mon src tx (world_at j)) = OK st'
                /\ resolved st' = false) ->
        now (world_at k) - now w < timeout ->
        monitorMessage env mon src tx (world_at k) = (OK st, w') ->
        resolved st = true ->
        forall fuel, (k < fuel)%nat ->
          waitForRelay env fuel mon src tx timeoutMs w = Some (OK st, w')).
Proof.
  intros timeout world_at. unfold waitForRelay. fold timeout.
  split; [|split].
  - intros fuel Hfuel.
    destruct (rounds_bound_enough timeout 2000 fuel ltac:(lia) Hfuel).
    apply waitForRelay_loop_ends; lia.
  - intros Hun fuel Hfuel.
    destruct (rounds_bound_enough timeout 2000 fuel ltac:(lia) Hfuel).
    apply waitForRelay_loop_times_out; [exact Hun|lia|lia].
  - intros k st w' Hbefore Hin Hpoll Hres fuel Hfuel.
    now apply (waitForRelay_loop_resolves mon src tx timeout (now w) k st w w').
Qed.

End ClockFacts.

Section WaitWitness.
Import Bytes JsNumber Codec Monitor Scenario.

Lemma in_flight_unresolved (w : World) :
  exists st,
    fst (monitorMessage in_flight monAB 901 txAA w) = OK st
    /\ resolved st = false.
Proof. eexists. split; vm_compute; reflexivity. Qed.

Lemma waitForRelay_times_out_or_resolves_witness :
  (exists w',
     waitForRelay in_flight 3 monAB 901 txAA (Some 3000) start
     = Some (Err TimeoutWaitingForRelay, w')
     /\ 3000 <= now w' - now start)
  /\ (exists st w',
        waitForRelay relayed_later 3 monAB 901 txAA (Some 10000) start
        = Some (OK st, w')
        /\ status st = relayed).
Proof.
  split.
  - destruct (waitForRelay_times_out_or_resolves in_flight monAB 901 txAA
                (Some 3000) start) as (_ & Hout & _).
    apply Hout.
    + intros j. apply in_flight_unresolved.
    + vm_compute. lia.
  - destruct (waitForRelay_times_out_or_resolves relayed_later monAB 901 txAA
                (Some 10000) start) as (_ & _ & Hres).
    eexists. eexists. split.
    + apply (Hres 1%nat).
      * intros j Hj.
        destruct j as [|j]; [|lia].
        split; [vm_compute; reflexivity|].
        eexists; split; vm_compute; reflexivity.
      * vm_compute. reflexivity.
      * vm_compute. reflexivity.
      * vm_compute. reflexivity.
      * lia.
    + vm_compute. reflexivity.
Defined.

End WaitWitness.

(** ** Starting the monitor, and expiry *)

Section LifecycleFacts.
Import Bytes JsNumber Codec Monitor.
Variable env : Env.

Lemma startMonitoring_running (callback : option nat)
    (s : CrossChainMonitor * World) :
  isMonitoring (fst (startMonitoring callback s)) = true.
Proof.
  destruct s as [mon w]. unfold startMonitoring.
  destruct (isMonitoring mon) eqn:E; [exact E|].
  assert (Hfold : forall cs acc,
    isMonitoring (fst acc) = true ->
    isMonitoring
      (fst (fold_left
         (fun (acc : CrossChainMonitor * World) (chainConfig : ChainConfig) =>
            let '(m, w') := acc in
            let '(interval, w'') :=
              setInterval chainConfig callback (pollingInterval m) w' in
            (set_monitoring (isMonitoring m)
               (monitoringIntervals m ++ [interval]) m, w'')) cs acc)) = true).
  { induction cs as [|c cs IH]; intros [m w'] Hacc; [exact Hacc|].
    cbn [fold_left]. apply IH. exact Hacc. }
  apply Hfold. reflexivity.
Qed.

(** C9.  [startMonitoring] is idempotent: on a monitor that is already
    monitoring it changes neither the monitor (flag, timer handles) nor
    the world (no timer is added); so a second call after any first one
    changes nothing. *)
Theorem startMonitoring_idempotent (callback : option nat)
    (mon : CrossChainMonitor) (w : World) :
  isMonitoring mon = true ->
  startMonitoring callback (mon, w) = (mon, w)
  /\ forall callback' s,
       startMonitoring callback (startMonitoring callback' s)
       = startMonitoring callback' s.
Proof.
  intros Hrun. split.
  - unfold startMonitoring. now rewrite Hrun.
  - intros callback' s.
    pose proof (startMonitoring_running callback' s) as Hr.
    destruct (startMonitoring callback' s) as [m' w'].
    unfold startMonitoring. cbn [fst] in Hr. now rewrite Hr.
Qed.

(** The verdict of the probe is 'relayed' or 'failed'. *)
Lemma relay_verdict_status (logs : list Log) (h : Hash) :
  relay_status (relay_verdict logs h) = relayed
  \/ relay_status (relay_verdict logs h) = failed.
Proof.
  unfold relay_verdict.
  destruct (List.find (is_relayed_for h) logs); [now left|].
  destruct (List.find (is_failed_for h) logs); now right.
Qed.

Lemma checkRelayStatus_status (mon : CrossChainMonitor) (d : number) (h : Hash)
    (w : World) (rs : RelayStatus) :
  fst (checkRelayStatus env mon d h w) = OK rs ->
  relay_status rs = relayed \/ relay_status rs = failed.
Proof.
  unfold checkRelayStatus.
  destruct (clients_get mon d); [|intros [= <-]; now right].
  destruct (List.find _ _); [|intros [= <-]; now right].
  unfold try_catch, bind, await, ret.
  destruct (getLogs env _ _ _ _ _); intros [= <-];
    [apply relay_verdict_status|now right].
Qed.

Lemma apply_relay_status (st : MessageStatus) (rs : RelayStatus) :
  status st = sent ->
  relay_status rs = relayed \/ relay_status rs = failed ->
  status (apply_relay st rs) <> expired.
Proof.
  intros Hst Hrs. unfold apply_relay.
  destruct (isRelayed rs); cbn [status]; [|congruence].
  destruct Hrs; congruence.
Qed.

Lemma monitorMessage_status (mon : CrossChainMonitor) (src : Z) (tx : Hash)
    (w : World) (st : MessageStatus) :
  fst (monitorMessage env mon src tx w) = OK st -> status st <> expired.
Proof.
  unfold monitorMessage.
  destruct (clients mon !! src) as [client|]; [|discriminate].
  unfold bind at 1. destruct (await env _ w) as [[receipt|e] w1]; [|discriminate].
  destruct (List.filter is_sent (receipt_logs receipt)) as [|log rest];
    [discriminate|].
  unfold bind at 1. destruct (lift (decodeSentMessage log) w1) as [[sm|e] w2];
    [|discriminate].
  unfold bind at 1.
  destruct (createMessageIdentifier env mon src log _ w2) as [[id|e] w3];
    [|discriminate].
  unfold bind at 1.
  destruct (lift (calculateMessageHash id sm) w3) as [[h|e] w4]; [|discriminate].
  unfold bind at 1. unfold Date_now at 1.
  destruct (clients_get mon (destination sm)).
  - unfold bind.
    destruct (checkRelayStatus env mon (destination sm) h w4) as [[rs|e] w5] eqn:E;
      [|discriminate].
    intros [= <-]. apply apply_relay_status; [reflexivity|].
    apply (checkRelayStatus_status mon (destination sm) h w4). now rewrite E.
  - intros [= <-]. discriminate.
Qed.

Lemma monitorMessage_ignores_expiry (x : Z) (mon : CrossChainMonitor) (src : Z)
    (tx : Hash) (w : World) :
  monitorMessage env (with_messageExpiry x mon) src tx w
  = monitorMessage env mon src tx w.
Proof. reflexivity. Qed.


Lemma emits_bind {A B} (P : MessageStatus -> Prop) (Q : A -> Prop)
    (R : B -> Prop) (m : M World A) (k : A -> M World B) :
  emits P Q m -> (forall a, Q a -> emits P R (k a)) -> emits P R (bind m k).
Proof.
  intros Hm Hk w. unfold bind. destruct (Hm w) as ((l & Hl & HP) & HQ).
  destruct (m w) as [[a|e] w1]; cbn [fst snd] in *.
  - destruct (Hk a (HQ a eq_refl) w1) as ((l' & Hl' & HP') & HR).
    split; [|exact HR]. exists (l ++ l'). rewrite Hl', Hl, app_assoc.
    split; [reflexivity|]. apply Forall_app. now split.
  - split; [eauto|discriminate].
Qed.

Lemma emits_try_catch {A} (P : MessageStatus -> Prop) (Q R : A -> Prop)
    (m : M World A) (h : Error -> M World A) :
  emits P Q m -> (forall e, emits P R (h e)) ->
  emits P (fun a => Q a \/ R a) (try_catch m h).
Proof.
  intros Hm Hh w. unfold try_catch. destruct (Hm w) as ((l & Hl & HP) & HQ).
  destruct (m w) as [[a|e] w1]; cbn [fst snd] in *.
  - split; [eauto|]. intros a' [= <-]. left. now apply HQ.
  - destruct (Hh e w1) as ((l' & Hl' & HP') & HR).
    split; [|intros a Ha; right; now apply HR].
    exists (l ++ l'). rewrite Hl', Hl, app_assoc.
    split; [reflexivity|]. apply Forall_app. now split.
Qed.

Lemma emits_weaken {A} (P : MessageStatus -> Prop) (Q R : A -> Prop)
    (m : M World A) :
  emits P Q m -> (forall a, Q a -> R a) -> emits P R m.
Proof.
  intros Hm HQR w. destruct (Hm w) as (Hl & HQ). split; [exact Hl|].
  intros a Ha. apply HQR. now apply HQ.
Qed.

Lemma emits_reads_only {A} (P : MessageStatus -> Prop) (m : M World A) :
  reads_only m -> emits P (fun _ => True) m.
Proof.
  intros Hm w. destruct (Hm w) as (t & _ & ->). split; [|trivial].
  exists []. cbn [delivered set_now]. rewrite app_nil_r. now split.
Qed.

Lemma emits_ret {A} (P : MessageStatus -> Prop) (a : A) :
  emits P (fun a' => a' = a) (ret a).
Proof.
  intros w. split; [|now intros a' [= <-]].
  exists []. cbn. rewrite app_nil_r. now split.
Qed.

Lemma emits_checkRelayStatus (P : MessageStatus -> Prop)
    (mon : CrossChainMonitor) (d : number) (h : Hash) :
  emits P (fun rs => relay_status rs = relayed \/ relay_status rs = failed)
    (checkRelayStatus env mon d h).
Proof.
  intros w. split.
  - apply (emits_reads_only P _ (reads_only_checkRelayStatus env mon d h) w).
  - intros rs. apply checkRelayStatus_status.
Qed.

Lemma emits_process_log (mon : CrossChainMonitor) (chainConfig : ChainConfig)
    (callback : option nat) (log : Log) :
  emits (fun st => status st <> expired) (fun _ => True)
    (process_log env mon chainConfig callback log).
Proof.
  unfold process_log.
  eapply emits_weaken; [|intros; exact I].
  apply emits_try_catch with (Q := fun _ => True) (R := fun _ => True);
    [|intros e; eapply emits_weaken; [apply emits_ret|trivial]].
  eapply emits_bind;
    [apply emits_reads_only, reads_only_lift|intros sm _].
  eapply emits_bind;
    [apply emits_reads_only, reads_only_lift|intros blockNum _].
  eapply emits_bind;
    [apply emits_reads_only, reads_only_createMessageIdentifier|intros id _].
  eapply emits_bind;
    [apply emits_reads_only, reads_only_lift|intros h _].
  eapply emits_bind;
    [apply emits_reads_only, reads_only_Date_now|intros t _].
  eapply emits_bind; [apply emits_checkRelayStatus|intros rs Hrs].
  destruct callback as [cb|];
    [|eapply emits_weaken; [apply emits_ret|trivial]].
  intros w. split; [|trivial].
  eexists [_]. cbn [snd delivered add_delivered]. split; [reflexivity|].
  constructor; [|constructor]. cbn [snd].
  now apply apply_relay_status.
Qed.

Lemma emits_for_each {A} (P : MessageStatus -> Prop) (body : A -> M World unit)
    (l : list A) :
  (forall a, emits P (fun _ => True) (body a)) ->
  emits P (fun _ => True) (for_each body l).
Proof.
  intros Hbody. induction l as [|a rest IH]; cbn [for_each].
  - eapply emits_weaken; [apply emits_ret|trivial].
  - eapply emits_bind; [apply Hbody|intros _ _; exact IH].
Qed.

Lemma emits_pollChainForMessages (mon : CrossChainMonitor)
    (chainConfig : ChainConfig) (callback : option nat) :
  emits (fun st => status st <> expired) (fun _ => True)
    (pollChainForMessages env mon chainConfig callback).
Proof.
  unfold pollChainForMessages.
  eapply emits_weaken; [|intros; exact I].
  apply emits_try_catch with (Q := fun _ => True) (R := fun _ => True);
    [|intros e; eapply emits_weaken; [apply emits_ret|trivial]].
  destruct (clients mon !! cfg_chainId chainConfig);
    [|apply emits_reads_only, reads_only_throw].
  eapply emits_bind;
    [apply emits_reads_only, reads_only_await|intros latest _].
  eapply emits_bind;
    [apply emits_reads_only, reads_only_await|intros logs _].
  apply emits_for_each. intros log. apply emits_process_log.
Qed.

(** The monitor's answer once the destination messenger's logs are read. *)
Lemma monitorMessage_probed (mon : CrossChainMonitor) (src : Z) (tx : Hash)
    (w : World) (sm : SentMessage) (id : MessageIdentifier) (h : Hash) (d : Z)
    (dclient : PublicClient) (dcfg : ChainConfig) (dlogs : list Log) :
  observes env mon src tx w sm id h ->
  destination sm = Num d ->
  clients mon !! d = Some dclient ->
  List.find (fun c => cfg_chainId c =? d) (chains (config mon)) = Some dcfg ->
  getLogs env dclient (cfg_messengerAddress dcfg) (Some Earliest) (Some Latest)
    (after env (after env (now w))) = OK dlogs ->
  fst (monitorMessage env mon src tx w)
  = OK (apply_relay
          (initial_status h id tx (after env (after env (now w))))
          (relay_verdict dlogs h)).
Proof.
  intros Hobs Hdest Hc Hf Hl.
  rewrite (monitorMessage_observed env mon src tx w sm id h Hobs).
  rewrite Hdest. cbn [clients_get]. rewrite Hc.
  rewrite (checkRelayStatus_probe env mon d h
             (set_now (after env (after env (now w))) w) dclient dcfg dlogs
             Hc Hf Hl).
  reflexivity.
Qed.

Lemma relay_verdict_unresolved (logs : list Log) (h : Hash) :
  ~ Exists (RelayedMessage_for h) logs ->
  ~ Exists (FailedRelayedMessage_for h) logs ->
  isRelayed (relay_verdict logs h) = false.
Proof.
  intros Hr Hf. unfold relay_verdict.
  apply (find_none_iff (is_relayed_for h) _ logs (is_relayed_for_spec h)) in Hr.
  apply (find_none_iff (is_failed_for h) _ logs (is_failed_for_spec h)) in Hf.
  now rewrite Hr, Hf.
Qed.

(** C8, as the code has it.  The monitor never assigns 'expired': a status
    from [monitorMessage], and every status [pollChainForMessages]
    delivers, is 'sent', 'relayed' or 'failed'; the configured expiry is
    not consulted; and when neither a relayed nor a failed-relay event is
    found the state is 'sent', whatever the timestamps. *)
Theorem monitor_never_expires (mon : CrossChainMonitor) (src : Z) (tx : Hash)
    (w : World) :
  (forall st, fst (monitorMessage env mon src tx w) = OK st ->
     status st <> expired)
  /\ (forall x,
        monitorMessage env (with_messageExpiry x mon) src tx w
        = monitorMessage env mon src tx w)
  /\ (forall chainConfig callback,
        exists l,
          delivered (snd (pollChainForMessages env mon chainConfig callback w))
          = delivered w ++ l
          /\ Forall (fun d => status (snd d) <> expired) l)
  /\ (forall sm id h d dclient dcfg dlogs,
        observes env mon src tx w sm id h ->
        destination sm = Num d ->
        clients mon !! d = Some dclient ->
        List.find (fun c => cfg_chainId c =? d) (chains (config mon))
        = Some dcfg ->
        getLogs env dclient (cfg_messengerAddress dcfg) (Some Earliest)
          (Some Latest) (after env (after env (now w))) = OK dlogs ->
        ~ Exists (RelayedMessage_for h) dlogs ->
        ~ Exists (FailedRelayedMessage_for h) dlogs ->
        exists st,
          fst (monitorMessage env mon src tx w) = OK st /\ status st = sent).
Proof.
  split; [|split; [|split]].
  - intros st. apply monitorMessage_status.
  - intros x. apply monitorMessage_ignores_expiry.
  - intros chainConfig callback.
    apply (emits_pollChainForMessages mon chainConfig callback w).
  - intros sm id h d dclient dcfg dlogs Hobs Hdest Hc Hf Hl Hnr Hnf.
    rewrite (monitorMessage_probed mon src tx w sm id h d dclient dcfg dlogs)
      by assumption.
    eexists. split; [reflexivity|].
    unfold apply_relay. now rewrite relay_verdict_unresolved.
Qed.

End LifecycleFacts.

Section LifecycleWitnesses.
Import Bytes JsNumber Codec Monitor Scenario.

Lemma startMonitoring_idempotent_witness :
  length (timers (snd (startMonitoring (Some 0%nat) (monAB, start)))) = 2%nat
  /\ startMonitoring (Some 1%nat) (startMonitoring (Some 0%nat) (monAB, start))
     = startMonitoring (Some 0%nat) (monAB, start).
Proof.
  split; [vm_compute; reflexivity|].
  rewrite (surjective_pairing (startMonitoring (Some 0%nat) (monAB, start))).
  apply startMonitoring_idempotent. vm_compute. reflexivity.
Defined.

(** C8, as the spec states it, fails: a message sent 100 seconds ago, with
    an expiry of one second and no relayed or failed-relay event, is
    reported 'sent', not 'expired'. *)
Lemma monitorMessage_expired_counterexample :
  messageExpiry monAB = 1
  /\ exists st dlogs,
       fst (monitorMessage in_flight monAB 901 txAA start) = OK st
       /\ getLogs in_flight
            (createPublicClient (cfg_chain chainB) (cfg_rpcUrl chainB))
            messenger (Some Earliest) (Some Latest) (observedAt st) = OK dlogs
       /\ ~ Exists (RelayedMessage_for (messageHash st)) dlogs
       /\ ~ Exists (FailedRelayedMessage_for (messageHash st)) dlogs
       /\ messageExpiry monAB < observedAt st
       /\ 1000 * messageExpiry monAB
          < observedAt st - 1000 * timestamp (identifier st)
       /\ status st <> expired.
Proof.
  split; [reflexivity|].
  eexists. exists [otherLog].
  split; [vm_compute; reflexivity|].
  split; [vm_compute; reflexivity|].
  split; [|split].
  - intros H. apply Exists_cons in H as [[_ H]|H];
      [vm_compute in H; discriminate H|inversion H].
  - intros H. apply Exists_cons in H as [[H _]|H];
      [vm_compute in H; discriminate H|inversion H].
  - split; [vm_compute; reflexivity|].
    split; [vm_compute; reflexivity|]. vm_compute. discriminate.
Defined.

Lemma monitor_never_expires_witness :
  exists st,
    fst (monitorMessage in_flight monAB 901 txAA start) = OK st
    /\ status st = sent.
Proof.
  destruct (monitor_never_expires in_flight monAB 901 txAA start)
    as (_ & _ & _ & H).
  apply (H msgAA idAA hashAA 902
           (createPublicClient (cfg_chain chainB) (cfg_rpcUrl chainB))
           chainB [otherLog]).
  - apply observes_txAA; intros; vm_compute; reflexivity.
  - reflexivity.
  - vm_compute; reflexivity.
  - vm_compute; reflexivity.
  - vm_compute; reflexivity.
  - intros Hex. apply Exists_cons in Hex as [[_ Hex]|Hex];
      [vm_compute in Hex; discriminate Hex|inversion Hex].
  - intros Hex. apply Exists_cons in Hex as [[Hex _]|Hex];
      [vm_compute in Hex; discriminate Hex|inversion Hex].
Defined.

End LifecycleWitnesses.

(** ** The workflow *)

Section WorkflowFacts.
Import Bytes DexRouters Provider Monitor SwapService.
Variable env : Env.

Lemma executeLocal_calls (p : ProductionPortoProvider) (chain : Z)
    (target : string) (value : Z) (data : Hex) (w : World) :
  calls (snd (executeLocal env p chain target value data w))
  = calls w ++ [CalledExecuteLocal chain].
Proof.
  unfold executeLocal, bind, record_call.
  destruct (provider_clients p !! chain); reflexivity.
Qed.

(** C6, as the code has it.  When the source-swap submission errors,
    [executeSwapBridgeSwap] stops there: the only provider call made is
    that [executeLocal] ([bridgeTokens] is not called), the local list of
    operations is empty, and the caller gets the error alone: the method
    rethrows it and hands no operations list over. *)
Theorem executeSwapBridgeSwap_source_swap_fails (svc : SuperchainSwapService)
    (params : SwapBridgeSwapParams) (w : World)
    (tokenIn tokenOut destIn destOut : string) (data : Hex)
    (cfg : RouterConfig) (e : Error) :
  resolveTokenAddress (sourceTokenIn params) (sourceChain params) = OK tokenIn ->
  resolveTokenAddress (sourceTokenOut params) (sourceChain params)
  = OK tokenOut ->
  resolveTokenAddress (destTokenIn params) (destinationChain params)
  = OK destIn ->
  resolveTokenAddress (destTokenOut params) (destinationChain params)
  = OK destOut ->
  encodeSwapData env (sourceChain params) tokenIn tokenOut
    (sourceAmountIn params) (sourceMinAmountOut params) (recipient params)
    (deadline_or_default params (now w)) = OK data ->
  getRouterConfig (sourceChain params) = Some cfg ->
  fst (executeLocal env (portoProvider svc) (sourceChain params) (router cfg)
         0 data w) = Err e ->
  exists w',
    executeSwapBridgeSwap_frame env svc params ([], w) = (Err e, ([], w'))
    /\ executeSwapBridgeSwap env svc params w = (Err e, w')
    /\ calls w' = calls w ++ [CalledExecuteLocal (sourceChain params)]
    /\ returned_operations (fst (executeSwapBridgeSwap env svc params w)) = None.
Proof.
  intros H1 H2 H3 H4 Hdata Hcfg Hexec.
  pose proof (executeLocal_calls (portoProvider svc) (sourceChain params)
                (router cfg) 0 data w) as Hcalls.
  destruct (executeLocal env (portoProvider svc) (sourceChain params)
              (router cfg) 0 data w) as [r w'] eqn:E.
  cbn [fst] in Hexec. subst r. cbn [snd] in Hcalls.
  assert (Hframe :
    executeSwapBridgeSwap_frame env svc params ([], w) = (Err e, ([], w'))).
  { unfold executeSwapBridgeSwap_frame.
    unfold bind at 1. unfold in_world at 1. unfold Date_now at 1. cbn [snd fst].
    unfold bind at 1. unfold lift at 1. rewrite H1.
    unfold bind at 1. unfold lift at 1. rewrite H2.
    unfold bind at 1. unfold lift at 1. rewrite H3.
    unfold bind at 1. unfold lift at 1. rewrite H4.
    unfold swap_bridge_swap_steps, try_catch.
    unfold bind at 1. unfold lift at 1. rewrite Hdata.
    unfold bind at 1. unfold lift at 1. unfold router_or_throw. rewrite Hcfg.
    unfold bind at 1. unfold in_world at 1. cbn [snd fst]. rewrite E.
    reflexivity. }
  exists w'. split; [exact Hframe|].
  assert (Hcall : executeSwapBridgeSwap env svc params w = (Err e, w'))
    by (unfold executeSwapBridgeSwap; now rewrite Hframe).
  split; [exact Hcall|]. split; [exact Hcalls|]. now rewrite Hcall.
Qed.

Lemma hex_text_not_placeholder (t : list byte) :
  String.eqb (hex_text t) "0x..." = false.
Proof.
  destruct t as [|b t]; [reflexivity|].
  unfold hex_text. cbn [hex_digits String.eqb].
  replace (Ascii.eqb "0" "0") with true by reflexivity.
  replace (Ascii.eqb "x" "x") with true by reflexivity.
  destruct b; vm_compute; reflexivity.
Qed.

(** No receipt yields a message hash: no topic is the placeholder text. *)
Lemma extractMessageHashFromReceipt_none (receipt : Receipt) :
  extractMessageHashFromReceipt receipt = None.
Proof.
  unfold extractMessageHashFromReceipt.
  assert (Hnone : List.find
    (fun log => match log_topics log !! 0%nat with
                | Some t => String.eqb (hex_text t) "0x..."
                | None => false
                end) (receipt_logs receipt) = None).
  { induction (receipt_logs receipt) as [|log logs IH]; [reflexivity|].
    cbn [List.find]. destruct (log_topics log !! 0%nat) as [t|]; [|exact IH].
    now rewrite hex_text_not_placeholder. }
  now rewrite Hnone.
Qed.

(** C7, where the code departs from it.  When the tracked message cannot
    be monitored -- the result carries no message hash, or
    [monitorMessage] throws -- [monitorSwapBridgeSwap] returns no status,
    [every] holds of the empty list, and [waitForCompletion] returns true
    on its first turn although no message was seen relayed. *)
Theorem waitForCompletion_true_when_unmonitored (svc : SuperchainSwapService)
    (result : SwapBridgeSwapResult) (timeoutMs : option Z) (w w1 : World)
    (fuel : nat) :
  monitorSwapBridgeSwap env svc result w = (OK [], w1) ->
  0 < default 300000 timeoutMs ->
  waitForCompletion env (S fuel) svc result timeoutMs w = Some (OK true, w1).
Proof.
  intros Hmon Hpos. unfold waitForCompletion. cbn [waitForCompletion_loop].
  destruct (Z.ltb_spec (now w - now w) (default 300000 timeoutMs)); [|lia].
  now rewrite Hmon.
Qed.

End WorkflowFacts.

Section WorkflowWitnesses.
Import Bytes DexRouters Provider Monitor SwapService Scenario.

Lemma executeSwapBridgeSwap_source_swap_fails_witness :
  exists w',
    executeSwapBridgeSwap swap_reverts service swapParams start
    = (Err (ExecutionError "execution reverted"), w')
    /\ calls w' = [CalledExecuteLocal 901].
Proof.
  destruct (executeSwapBridgeSwap_source_swap_fails swap_reverts service
              swapParams start
              "0x4200000000000000000000000000000000000006"
              "0x420beeF000000000000000000000000000000001"
              "0x420beeF000000000000000000000000000000001"
              "0x4200000000000000000000000000000000000006"
              (unhex "414bf389")
              {| router := "0x1111111111111111111111111111111111111111";
                 router_name := "Supersim Mock DEX A";
                 router_type := "uniswap-v3" |}
              (ExecutionError "execution reverted"))
    as (w' & _ & Hcall & Hcalls & _);
    try (vm_compute; reflexivity).
  exists w'. split; [exact Hcall|exact Hcalls].
Defined.

(** C6, as the spec states it, fails: when the source swap reverts the
    caller is given the error and no operations list, not the empty one. *)
Lemma executeSwapBridgeSwap_partial_list_counterexample :
  fst (executeLocal swap_reverts provider 901
         "0x1111111111111111111111111111111111111111" 0 (unhex "414bf389")
         start) = Err (ExecutionError "execution reverted")
  /\ fst (executeSwapBridgeSwap swap_reverts service swapParams start)
     = Err (ExecutionError "execution reverted")
  /\ returned_operations
       (fst (executeSwapBridgeSwap swap_reverts service swapParams start))
     <> Some [].
Proof.
  split; [vm_compute; reflexivity|].
  split; [vm_compute; reflexivity|].
  vm_compute. discriminate.
Defined.

Lemma waitForCompletion_true_when_unmonitored_witness :
  exists result,
    fst (executeSwapBridgeSwap in_flight service swapParams start) = OK result
    /\ waitForCompletion in_flight 1 service result (Some 300000) start
       = Some (OK true, start).
Proof.
  eexists. split; [vm_compute; reflexivity|].
  apply waitForCompletion_true_when_unmonitored.
  - vm_compute. reflexivity.
  - vm_compute. reflexivity.
Defined.

End WorkflowWitnesses.

(** ** More on the codec *)

Section CodecExtras.
Import Bytes Keccak JsNumber Abi Codec.

Lemma Z_of_byte_of_Z (z : Z) : Z_of_byte (byte_of_Z z) = z mod 256.
Proof.
  unfold Z_of_byte, byte_of_Z.
  assert (Hr : 0 <= z mod 256 < 256) by (apply Z.mod_pos_bound; lia).
  destruct (Byte.of_N (Z.to_N (z mod 256))) as [b|] eqn:E.
  - apply Byte.to_of_N in E. rewrite E. lia.
  - apply Byte.of_N_None_iff in E. lia.
Qed.

Lemma be_value_snoc (bs : list byte) (b : byte) :
  be_value (bs ++ [b]) = 256 * be_value bs + Z_of_byte b.
Proof. unfold be_value. now rewrite fold_left_app. Qed.

Lemma be_value_be_bytes (n : nat) (z : Z) :
  0 <= z < 256 ^ Z.of_nat n -> be_value (be_bytes n z) = z.
Proof.
  revert z. induction n as [|n IH]; intros z Hz.
  - cbn in *. unfold be_value. cbn. lia.
  - cbn [be_bytes]. rewrite be_value_snoc, Z_of_byte_of_Z, IH.
    + pose proof (Z.div_mod z 256 ltac:(lia)). lia.
    + rewrite Nat2Z.inj_succ, Z.pow_succ_r in Hz by lia.
      split; [apply Z.div_pos; lia|].
      apply Z.div_lt_upper_bound; lia.
Qed.

Lemma be_value_word (z : Z) : uint256 z -> be_value (word z) = z.
Proof. intros Hz. apply be_value_be_bytes. exact Hz. Qed.

Lemma word_not_nil (z : Z) : word z <> [].
Proof.
  intros H. pose proof (length_word z) as Hl. rewrite H in Hl. discriminate.
Qed.

Lemma round_double_small (n : Z) : n < 2 ^ 53 -> round_double n = n.
Proof.
  intros Hn. unfold round_double.
  destruct (Z.ltb_spec n (2 ^ 53)); [reflexivity|lia].
Qed.

Lemma parseInt16_word (z : Z) :
  0 <= z < 2 ^ 53 -> parseInt16 (Some (word z)) = Num z.
Proof.
  intros Hz. unfold parseInt16.
  destruct (word z) as [|b bs] eqn:E; [now apply word_not_nil in E|].
  rewrite <- E, be_value_word, round_double_small; [reflexivity|lia|].
  unfold uint256. split; [lia|].
  apply Z.lt_trans with (2 ^ 53); [lia|]. apply Z.pow_lt_mono_r; lia.
Qed.

Lemma skipn_pad_left_address (a : list byte) :
  address a -> skipn 12 (pad_left a) = a.
Proof.
  unfold address, pad_left. intros ->.
  change (32 - 20)%nat with 12%nat.
  rewrite skipn_app, repeat_length, Nat.sub_diag.
  rewrite skipn_all2 by (rewrite repeat_length; lia). reflexivity.
Qed.

(** [text.slice(a, b)] inside the text is the bytes from a/2 to b/2. *)
Lemma hex_slice_within (h : list byte) (a b : Z) :
  0 <= a -> a <= b -> b <= 2 * Z.of_nat (length h) ->
  hex_slice h (Num a) (Num b)
  = firstn (Z.to_nat (b / 2 - a / 2)) (skipn (Z.to_nat (a / 2)) h).
Proof.
  intros Ha Hab Hb. unfold hex_slice, slice_index.
  rewrite !Z.min_l, !Z.max_l by lia. reflexivity.
Qed.

Lemma slice_middle {A} (pre x post : list A) (n m : nat) :
  length pre = n -> length x = m ->
  firstn m (skipn n (pre ++ x ++ post)) = x.
Proof.
  intros <- <-. now rewrite drop_app_length, take_app_length.
Qed.

Lemma length_pad_right_ge (bs : list byte) :
  (length bs <= length (pad_right bs))%nat.
Proof. unfold pad_right. rewrite length_app. lia. Qed.

(** X1.  Decoding round trip: the log the messenger emits for a message
    (three indexed topics after the signature; data holding the sender,
    the offset 64, the payload length and the padded payload) decodes to
    that message, for a destination chain id below 2^53. *)
Theorem decodeSentMessage_round_trip (dest nonce_ : Z)
    (target_ sender_ payload : list byte) (emitter : Address)
    (bn li : option Z) (txh : option Hash) :
  0 <= dest < 2 ^ 53 -> uint256 nonce_ ->
  address target_ -> address sender_ ->
  2 * Z.of_nat (length payload) + 192 < 2 ^ 53 ->
  decodeSentMessage
    {| log_address := emitter;
       log_topics :=
         [SENT_MESSAGE_SIGNATURE; word dest; pad_left target_; word nonce_];
       log_data :=
         pad_left sender_ ++ word 64 ++ word (Z.of_nat (length payload))
         ++ pad_right payload;
       log_blockNumber := bn; log_logIndex := li;
       log_transactionHash := txh |}
  = OK {| destination := Num dest; target := target_; nonce := nonce_;
          sender := sender_; message := payload |}.
Proof.
  intros Hdest Hnonce Htarget Hsender Hlen.
  set (data := pad_left sender_ ++ word 64 ++ word (Z.of_nat (length payload))
               ++ pad_right payload).
  assert (Hdata : Z.of_nat (length data)
                  = 96 + Z.of_nat (length (pad_right payload))).
  { unfold data. rewrite !length_app, !length_word,
      length_pad_left_address by assumption. lia. }
  pose proof (length_pad_right_ge payload) as Hpad.
  unfold decodeSentMessage.
  cbn [log_topics log_data lookup list_lookup].
  destruct (word nonce_) as [|n0 ns] eqn:En; [now apply word_not_nil in En|].
  rewrite <- En. clear En n0 ns.
  rewrite parseInt16_word by assumption.
  change (default [] (Some (pad_left target_))) with (pad_left target_).
  rewrite skipn_pad_left_address by assumption.
  rewrite be_value_word by assumption.
  fold data.
  (* the sender *)
  rewrite (hex_slice_within data 0 64) by lia.
  change (Z.to_nat (64 / 2 - 0 / 2)) with 32%nat.
  change (Z.to_nat (0 / 2)) with 0%nat.
  assert (Hs : firstn 32 (skipn 0 data) = pad_left sender_).
  { unfold data. apply (slice_middle [] (pad_left sender_) _ 0 32);
      [reflexivity|now apply length_pad_left_address]. }
  rewrite Hs, skipn_pad_left_address by assumption.
  (* the offset *)
  rewrite (hex_slice_within data 64 128) by lia.
  change (Z.to_nat (128 / 2 - 64 / 2)) with 32%nat.
  change (Z.to_nat (64 / 2)) with 32%nat.
  assert (Ho : firstn 32 (skipn 32 data) = word 64).
  { unfold data. apply slice_middle;
      [now apply length_pad_left_address|apply length_word]. }
  rewrite Ho, parseInt16_word by lia.
  cbn [times2 plus]. change (2 * 64) with 128.
  rewrite (round_double_small (128 + 64)) by lia. change (128 + 64) with 192.
  (* the length *)
  rewrite (hex_slice_within data 128 192) by lia.
  change (Z.to_nat (192 / 2 - 128 / 2)) with 32%nat.
  change (Z.to_nat (128 / 2)) with 64%nat.
  assert (Hl : firstn 32 (skipn 64 data) = word (Z.of_nat (length payload))).
  { unfold data. rewrite app_assoc. apply slice_middle;
      [|apply length_word].
    rewrite length_app, length_word, length_pad_left_address by assumption.
    reflexivity. }
  rewrite Hl, parseInt16_word by lia.
  cbn [times2 plus].
  rewrite (round_double_small (192 + 2 * Z.of_nat (length payload))) by lia.
  (* the payload *)
  rewrite hex_slice_within by lia.
  replace (Z.to_nat ((192 + 2 * Z.of_nat (length payload)) / 2 - 192 / 2))
    with (length payload).
  2:{ replace (192 + 2 * Z.of_nat (length payload))
        with ((96 + Z.of_nat (length payload)) * 2) by lia.
      rewrite Z.div_mul by lia. change (192 / 2) with 96. lia. }
  change (Z.to_nat (192 / 2)) with 96%nat.
  assert (Hm : firstn (length payload) (skipn 96 data) = payload).
  { unfold data, pad_right. rewrite !app_assoc.
    rewrite <- (app_assoc _ payload).
    apply slice_middle; [|reflexivity].
    rewrite !length_app, !length_word, length_pad_left_address by assumption.
    reflexivity. }
  now rewrite Hm.
Qed.

(** X2.  [decodeSentMessage] throws exactly when the log has no fourth
    topic (or an empty one): the data, whatever its length or layout,
    never makes it throw. *)
Theorem decodeSentMessage_throws_iff (log : Log) :
  is_OK (decodeSentMessage log) = true
  <-> exists t, log_topics log !! 3%nat = Some t /\ t <> [].
Proof.
  unfold decodeSentMessage.
  destruct (log_topics log !! 3%nat) as [[|b t]|].
  - split; [discriminate|]. intros (t & [= <-] & Ht). now elim Ht.
  - split; [|reflexivity]. intros _. exists (b :: t). now split.
  - split; [discriminate|]. intros (t & H & _). discriminate H.
Qed.

Lemma prepareStatic_uint256_OK (n : Z) (enc : list byte) :
  prepareStatic (AUint256 n) = OK enc -> uint256 n.
Proof.
  unfold prepareStatic, uint256.
  destruct (Z.leb_spec 0 n); [|discriminate].
  destruct (Z.ltb_spec n (2 ^ 256)); [|discriminate]. intros _. lia.
Qed.

Lemma prepareStatic_address_OK (a enc : list byte) :
  prepareStatic (AAddress a) = OK enc -> address a.
Proof.
  unfold prepareStatic, address.
  destruct (Nat.eqb_spec (length a) 20); [trivial|discriminate].
Qed.

(** X3.  [calculateMessageHash] returns a hash exactly for the valid
    inputs: an integer destination, 20-byte addresses and integers within
    uint256; otherwise the conversion or the encoder throws. *)
Theorem calculateMessageHash_defined_iff (id : MessageIdentifier)
    (m : SentMessage) :
  is_OK (calculateMessageHash id m) = true
  <-> (exists dest, valid_message m dest) /\ valid_identifier id.
Proof.
  split.
  - unfold calculateMessageHash.
    destruct (destination m) as [|dest] eqn:Ed; [discriminate|].
    cbn [BigInt_of_number].
    unfold encodeAbiParameters, identifier_tuple.
    cbn [prepareParams prepareParam prepareStatics].
    destruct (prepareStatic (ABytes32 SENT_MESSAGE_SIGNATURE)); [|discriminate].
    destruct (prepareStatic (AUint256 dest)) eqn:E1; [|discriminate].
    destruct (prepareStatic (AAddress (target m))) eqn:E2; [|discriminate].
    destruct (prepareStatic (AUint256 (nonce m))) eqn:E3; [|discriminate].
    destruct (prepareStatic (AAddress (sender m))) eqn:E4; [|discriminate].
    destruct (prepareStatic (AAddress (origin id))) eqn:E5; [|discriminate].
    destruct (prepareStatic (AUint256 (blockNumber id))) eqn:E6; [|discriminate].
    destruct (prepareStatic (AUint256 (logIndex id))) eqn:E7; [|discriminate].
    destruct (prepareStatic (AUint256 (timestamp id))) eqn:E8; [|discriminate].
    destruct (prepareStatic (AUint256 (chainId id))) eqn:E9; [|discriminate].
    intros _.
    apply prepareStatic_uint256_OK in E1, E3, E6, E7, E8, E9.
    apply prepareStatic_address_OK in E2, E4, E5.
    split; [exists dest; exact (conj Ed (conj E1 (conj E2 (conj E3 E4))))|].
    exact (conj E5 (conj E6 (conj E7 (conj E8 E9)))).
  - intros ((dest & Hm) & Hid).
    destruct Hm as (Hdest & Hd & Ht & Hn & Hs).
    unfold calculateMessageHash. rewrite Hdest. cbn [BigInt_of_number].
    rewrite encode_message
      by auto using length_SENT_MESSAGE_SIGNATURE.
    rewrite encode_identified by auto using keccak256_length.
    reflexivity.
Qed.

End CodecExtras.

(** ** More on the monitor *)

Section MonitorExtras.
Import Bytes JsNumber Codec Monitor.
Variable env : Env.

Lemma fold_max_ge (l : list Z) (acc : Z) : acc <= fold_left Z.max l acc.
Proof.
  revert acc. induction l as [|x l IH]; intros acc; cbn [fold_left]; [lia|].
  specialize (IH (Z.max acc x)). lia.
Qed.

Lemma reads_only_Promise_all_fulfilled {A} (tasks : list (M World A))
    (w : World) :
  Forall (fun task => is_OK (fst (task w)) = true) tasks ->
  exists t, now w <= t /\ snd (Promise_all tasks w) = set_now t w.
Proof.
  intros Hall. unfold Promise_all.
  rewrite earliest_rejection_fulfilled.
  - eexists. split; [|reflexivity]. apply fold_max_ge.
  - induction Hall; cbn [map]; constructor; assumption.
Qed.

(** X4.  [monitorMessage], [checkRelayStatus] and [getMessagesStatus] only
    read: they leave the timers, the delivered statuses and the provider's
    calls as they are, and the clock never goes back. *)
Theorem monitor_queries_only_read (mon : CrossChainMonitor) (w : World) :
  (forall src tx, exists t,
      now w <= t /\ snd (monitorMessage env mon src tx w) = set_now t w)
  /\ (forall d h, exists t,
        now w <= t /\ snd (checkRelayStatus env mon d h w) = set_now t w)
  /\ (forall messages, exists t,
        now w <= t /\ snd (getMessagesStatus env mon messages w) = set_now t w).
Proof.
  split; [|split].
  - intros src tx. apply reads_only_monitorMessage.
  - intros d h. apply reads_only_checkRelayStatus.
  - intros messages. unfold getMessagesStatus, bind.
    destruct (reads_only_Promise_all_fulfilled
                (map (monitor_or_null env mon) messages) w) as (t & Ht & Hw).
    + apply Stdlib.Lists.List.Forall_forall. intros task Hin.
      apply in_map_iff in Hin as (m & <- & _).
      now rewrite monitor_or_null_outcome.
    + destruct (Promise_all (map (monitor_or_null env mon) messages) w)
        as [[sts|e] w']; cbn [snd] in Hw; subst w'; exists t; now split.
Qed.

(** X5.  A failed read of the destination chain is not an error:
    [checkRelayStatus] catches it, and [monitorMessage] answers 'sent'
    with no relay hash and no error recorded. *)
Theorem monitorMessage_destination_unreachable (mon : CrossChainMonitor)
    (src : Z) (tx : Hash) (w : World) (sm : SentMessage)
    (id : MessageIdentifier) (h : Hash) (d : Z) (dclient : PublicClient)
    (dcfg : ChainConfig) (e : Error) :
  observes env mon src tx w sm id h ->
  destination sm = Num d ->
  clients mon !! d = Some dclient ->
  List.find (fun c => cfg_chainId c =? d) (chains (config mon)) = Some dcfg ->
  getLogs env dclient (cfg_messengerAddress dcfg) (Some Earliest) (Some Latest)
    (after env (after env (now w))) = Err e ->
  exists st,
    fst (monitorMessage env mon src tx w) = OK st
    /\ messageHash st = h /\ status st = sent
    /\ relayTxHash st = None /\ error st = None.
Proof.
  intros Hobs Hdest Hc Hf Hl.
  rewrite (monitorMessage_observed env mon src tx w sm id h Hobs).
  rewrite Hdest. cbn [clients_get]. rewrite Hc.
  unfold checkRelayStatus. cbn [clients_get]. rewrite Hc, Hf.
  unfold try_catch, bind, await. cbn [now set_now]. rewrite Hl.
  eexists. split; [reflexivity|]. split; [reflexivity|].
  split; [reflexivity|]. split; reflexivity.
Qed.

Lemma find_rev_none {A} (f : A -> bool) (l : list A) :
  List.find f (rev l) = None <-> List.find f l = None.
Proof.
  split; intros H.
  - destruct (List.find f l) as [a|] eqn:E; [|reflexivity].
    apply find_some in E as [Hin Ha]. apply in_rev in Hin.
    pose proof (find_none _ _ H a Hin). congruence.
  - destruct (List.find f (rev l)) as [a|] eqn:E; [|reflexivity].
    apply find_some in E as [Hin Ha]. apply (proj2 (in_rev l a)) in Hin.
    pose proof (find_none _ _ H a Hin). congruence.
Qed.

(** X6.  The constructor gives a chain id the client of the last
    configuration entry that carries it, and no client to any other id:
    a destination has a client exactly when [checkRelayStatus] finds its
    configuration. *)
Theorem constructor_clients (cfg : CrossChainMonitorConfig) (d : Z) :
  clients (Monitor.new cfg) !! d
  = (fun c => createPublicClient (cfg_chain c) (cfg_rpcUrl c))
    <$> List.find (fun c => cfg_chainId c =? d) (rev (chains cfg))
  /\ (clients (Monitor.new cfg) !! d = None
      <-> List.find (fun c => cfg_chainId c =? d) (chains cfg) = None).
Proof.
  assert (Hlookup :
    clients (Monitor.new cfg) !! d
    = (fun c => createPublicClient (cfg_chain c) (cfg_rpcUrl c))
      <$> List.find (fun c => cfg_chainId c =? d) (rev (chains cfg))).
  { cbn [Monitor.new clients].
    induction (chains cfg) as [|c cs IH] using rev_ind; [reflexivity|].
    rewrite fold_left_app, rev_app_distr. cbn [fold_left rev app List.find].
    destruct (Z.eqb_spec (cfg_chainId c) d) as [->|Hne].
    - now rewrite lookup_insert_eq.
    - now rewrite lookup_insert_ne. }
  split; [exact Hlookup|].
  rewrite Hlookup, <- find_rev_none.
  destruct (List.find _ (rev (chains cfg))); cbn; split; congruence.
Qed.

(** What [startMonitoring] does to an idle monitor. *)
Lemma startMonitoring_fold (callback : option nat) (cs : list ChainConfig)
    (m : CrossChainMonitor) (w : World) :
  fold_left
    (fun (acc : CrossChainMonitor * World) (chainConfig : ChainConfig) =>
       let '(m, w') := acc in
       let '(interval, w'') :=
         setInterval chainConfig callback (pollingInterval m) w' in
       (set_monitoring (isMonitoring m) (monitoringIntervals m ++ [interval]) m,
        w'')) cs (m, w)
  = (set_monitoring (isMonitoring m)
       (monitoringIntervals m ++ seq (next_handle w) (length cs)) m,
     set_timers
       (timers w
        ++ map (fun hc : nat * ChainConfig =>
                  {| timer_handle := fst hc; timer_chain := snd hc;
                     timer_callback := callback;
                     timer_period := pollingInterval m |})
             (combine (seq (next_handle w) (length cs)) cs))
       (next_handle w + length cs) w).
Proof.
  revert m w. induction cs as [|c cs IH]; intros m w.
  - cbn [fold_left length seq combine map]. rewrite !app_nil_r, Nat.add_0_r.
    destruct m, w; reflexivity.
  - cbn [fold_left]. unfold setInterval at 2. rewrite IH.
    cbn [length seq combine map fst snd next_handle timers set_timers
         set_monitoring monitoringIntervals isMonitoring pollingInterval].
    rewrite <- !app_assoc. cbn [app].
    rewrite Nat.add_succ_r. reflexivity.
Qed.

(** X7.  On an idle monitor [startMonitoring] sets the flag and starts
    exactly one timer a configured chain, in the order of the
    configuration, each with the polling interval and the subscriber, and
    keeps their handles. *)
Theorem startMonitoring_starts_timers (callback : option nat)
    (mon : CrossChainMonitor) (w : World) :
  isMonitoring mon = false ->
  let n := length (chains (config mon)) in
  let handles := seq (next_handle w) n in
  startMonitoring callback (mon, w)
  = (set_monitoring true (monitoringIntervals mon ++ handles) mon,
     set_timers
       (timers w
        ++ map (fun hc : nat * ChainConfig =>
                  {| timer_handle := fst hc; timer_chain := snd hc;
                     timer_callback := callback;
                     timer_period := pollingInterval mon |})
             (combine handles (chains (config mon))))
       (next_handle w + n) w).
Proof.
  intros Hidle n handles. unfold startMonitoring. rewrite Hidle.
  rewrite startMonitoring_fold. reflexivity.
Qed.

Lemma clear_all (hs : list nat) (w : World) :
  fold_left (fun w' h => clearInterval h w') hs w
  = set_timers
      (List.filter (fun t => negb (existsb (Nat.eqb (timer_handle t)) hs))
         (timers w))
      (next_handle w) w.
Proof.
  revert w. induction hs as [|h hs IH]; intros w.
  - cbn [fold_left existsb negb]. 
    assert (Hid : List.filter (fun _ : Timer => true) (timers w) = timers w).
    { induction (timers w) as [|t ts IHt]; [reflexivity|].
      cbn [List.filter]. now rewrite IHt. }
    rewrite Hid. now destruct w.
  - cbn [fold_left]. rewrite IH. unfold clearInterval, set_timers.
    cbn [now timers next_handle delivered calls]. f_equal.
    induction (timers w) as [|t ts IHt]; [reflexivity|].
    cbn [List.filter existsb].
    destruct (Nat.eqb (timer_handle t) h); cbn [negb orb List.filter];
      [exact IHt|].
    destruct (existsb (Nat.eqb (timer_handle t)) hs); cbn [negb];
      [exact IHt|now rewrite IHt].
Qed.

(** X8.  [stopMonitoring] undoes [startMonitoring]: started on an idle
    monitor and then stopped, the monitor is as before and the timers of
    the world are those there were before the start; and a second
    [stopMonitoring] changes nothing more. *)
Theorem stopMonitoring_undoes_start (callback : option nat)
    (mon : CrossChainMonitor) (w : World) :
  isMonitoring mon = false ->
  monitoringIntervals mon = [] ->
  Forall (fun t => (timer_handle t < next_handle w)%nat) (timers w) ->
  let stopped := stopMonitoring (startMonitoring callback (mon, w)) in
  fst stopped = mon
  /\ timers (snd stopped) = timers w
  /\ stopMonitoring stopped = stopped.
Proof.
  intros Hidle Hnone Hold stopped. subst stopped.
  rewrite (startMonitoring_starts_timers callback mon w Hidle).
  unfold stopMonitoring at 2.
  cbn [set_monitoring monitoringIntervals].
  rewrite Hnone. cbn [app]. rewrite clear_all.
  cbn [fst snd timers set_timers next_handle].
  split; [|split].
  - destruct mon; cbn in *; subst; reflexivity.
  - rewrite Stdlib.Lists.List.filter_app.
    set (n := length (chains (config mon))).
    assert (Hkeep : List.filter
      (fun t => negb (existsb (Nat.eqb (timer_handle t)) (seq (next_handle w) n)))
      (timers w) = timers w).
    { induction Hold as [|t ts Ht _ IH]; [reflexivity|].
      cbn [List.filter].
      destruct (existsb (Nat.eqb (timer_handle t)) (seq (next_handle w) n))
        eqn:E; cbn [negb]; [|now rewrite IH].
      apply existsb_exists in E as (h & Hin & Heq).
      apply in_seq in Hin. apply Nat.eqb_eq in Heq. lia. }
    rewrite Hkeep.
    assert (Hdrop : forall hs cs,
      Forall (fun h => In h (seq (next_handle w) n)) hs ->
      List.filter
        (fun t => negb (existsb (Nat.eqb (timer_handle t))
                          (seq (next_handle w) n)))
        (map (fun hc : nat * ChainConfig =>
                {| timer_handle := fst hc; timer_chain := snd hc;
                   timer_callback := callback;
                   timer_period := pollingInterval mon |})
           (combine hs cs)) = []).
    { induction hs as [|h hs IH]; intros [|c cs] Hin; try reflexivity.
      inversion Hin as [|? ? Hh Hrest]; subst.
      cbn [combine map List.filter timer_handle fst].
      assert (Hex : existsb (Nat.eqb h) (seq (next_handle w) n) = true).
      { apply existsb_exists. exists h. split; [exact Hh|apply Nat.eqb_refl]. }
      rewrite Hex. cbn [negb]. now apply IH. }
    rewrite Hdrop; [apply app_nil_r|].
    apply Stdlib.Lists.List.Forall_forall. auto.
  - unfold stopMonitoring. cbn [set_monitoring monitoringIntervals fold_left].
    reflexivity.
Qed.

Lemma delivers_to_reads_only {A} (callback : option nat) (m : M World A) :
  reads_only m -> delivers_to callback m.
Proof.
  intros Hm w. destruct (Hm w) as (t & Ht & ->). exists t, [].
  split; [exact Ht|]. split; [|constructor].
  unfold set_now. now rewrite app_nil_r.
Qed.

Lemma delivers_to_bind {A B} (callback : option nat) (m : M World A)
    (k : A -> M World B) :
  delivers_to callback m -> (forall a, delivers_to callback (k a)) ->
  delivers_to callback (bind m k).
Proof.
  intros Hm Hk w. unfold bind. destruct (Hm w) as (t & l & Ht & Hw & Hl).
  destruct (m w) as [[a|e] w1]; cbn [snd] in Hw; subst w1.
  - destruct (Hk a {| now := t; timers := timers w;
                      next_handle := next_handle w;
                      delivered := delivered w ++ l; calls := calls w |})
      as (t' & l' & Ht' & Hw' & Hl').
    cbn [now timers next_handle delivered calls] in *.
    exists t', (l ++ l'). split; [lia|]. split.
    + rewrite Hw'. now rewrite app_assoc.
    + apply Forall_app. now split.
  - exists t, l. now repeat split.
Qed.

Lemma delivers_to_try_catch {A} (callback : option nat) (m : M World A)
    (h : Error -> M World A) :
  delivers_to callback m -> (forall e, delivers_to callback (h e)) ->
  delivers_to callback (try_catch m h).
Proof.
  intros Hm Hh w. unfold try_catch. destruct (Hm w) as (t & l & Ht & Hw & Hl).
  destruct (m w) as [[a|e] w1]; cbn [snd] in Hw; subst w1.
  - exists t, l. now repeat split.
  - destruct (Hh e {| now := t; timers := timers w;
                      next_handle := next_handle w;
                      delivered := delivered w ++ l; calls := calls w |})
      as (t' & l' & Ht' & Hw' & Hl').
    cbn [now timers next_handle delivered calls] in *.
    exists t', (l ++ l'). split; [lia|]. split.
    + rewrite Hw'. now rewrite app_assoc.
    + apply Forall_app. now split.
Qed.

Lemma delivers_to_process_log (mon : CrossChainMonitor)
    (chainConfig : ChainConfig) (callback : option nat) (log : Log) :
  delivers_to callback (process_log env mon chainConfig callback log).
Proof.
  unfold process_log.
  apply delivers_to_try_catch;
    [|intros; apply delivers_to_reads_only, reads_only_ret].
  apply delivers_to_bind;
    [apply delivers_to_reads_only, reads_only_lift|intros sm].
  apply delivers_to_bind;
    [apply delivers_to_reads_only, reads_only_lift|intros blockNum].
  apply delivers_to_bind;
    [apply delivers_to_reads_only, reads_only_createMessageIdentifier|intros id].
  apply delivers_to_bind;
    [apply delivers_to_reads_only, reads_only_lift|intros h].
  apply delivers_to_bind;
    [apply delivers_to_reads_only, reads_only_Date_now|intros t].
  apply delivers_to_bind;
    [apply delivers_to_reads_only, reads_only_checkRelayStatus|intros rs].
  destruct callback as [cb|];
    [|apply delivers_to_reads_only, reads_only_ret].
  intros w. exists (now w), [(cb, apply_relay
      (initial_status h id (default [] (log_transactionHash log)) t) rs)].
  split; [lia|]. split; [reflexivity|]. constructor; [reflexivity|constructor].
Qed.

Lemma delivers_to_for_each {A} (callback : option nat)
    (body : A -> M World unit) (l : list A) :
  (forall a, delivers_to callback (body a)) ->
  delivers_to callback (for_each body l).
Proof.
  intros Hbody. induction l as [|a rest IH]; cbn [for_each].
  - apply delivers_to_reads_only, reads_only_ret.
  - apply delivers_to_bind; [apply Hbody|intros _; exact IH].
Qed.

Lemma delivers_to_pollChainForMessages (mon : CrossChainMonitor)
    (chainConfig : ChainConfig) (callback : option nat) :
  delivers_to callback (pollChainForMessages env mon chainConfig callback).
Proof.
  unfold pollChainForMessages.
  apply delivers_to_try_catch;
    [|intros; apply delivers_to_reads_only, reads_only_ret].
  destruct (clients mon !! cfg_chainId chainConfig);
    [|apply delivers_to_reads_only, reads_only_throw].
  apply delivers_to_bind;
    [apply delivers_to_reads_only, reads_only_await|intros latest].
  apply delivers_to_bind;
    [apply delivers_to_reads_only, reads_only_await|intros logs].
  apply delivers_to_for_each. intros log. apply delivers_to_process_log.
Qed.

Lemma try_catch_unit (m : M World unit) (w : World) :
  fst (try_catch m (fun _ => ret tt) w) = OK tt.
Proof. unfold try_catch. destruct (m w) as [[[]|e] w1]; reflexivity. Qed.

(** X9.  A poll of a chain never throws, whatever the RPC answers and
    however the logs are formed; it changes no timer and makes no provider
    call; what it delivers goes to the subscriber it was given, and
    without a subscriber nothing is delivered. *)
Theorem pollChainForMessages_contained (mon : CrossChainMonitor)
    (chainConfig : ChainConfig) (callback : option nat) (w : World) :
  let w' := snd (pollChainForMessages env mon chainConfig callback w) in
  fst (pollChainForMessages env mon chainConfig callback w) = OK tt
  /\ now w <= now w'
  /\ timers w' = timers w /\ next_handle w' = next_handle w
  /\ calls w' = calls w
  /\ (exists l, delivered w' = delivered w ++ l
                /\ Forall (fun d => Some (fst d) = callback) l)
  /\ (callback = None -> delivered w' = delivered w).
Proof.
  intros w'. subst w'.
  destruct (delivers_to_pollChainForMessages mon chainConfig callback w)
    as (t & l & Ht & Hw & Hl).
  rewrite Hw. cbn [now timers next_handle delivered calls].
  split.
  - unfold pollChainForMessages. apply try_catch_unit.
  - split; [exact Ht|]. repeat (split; [reflexivity|]).
    split; [exists l; now split|].
    intros ->. destruct l as [|d l]; [apply app_nil_r|].
    inversion Hl as [|? ? Hd _]. discriminate Hd.
Qed.

(** X10.  With a timeout that is not positive, [waitForRelay] throws the
    timeout error at once: no poll is made and the world is unchanged. *)
Theorem waitForRelay_no_budget (mon : CrossChainMonitor) (src : Z) (tx : Hash)
    (timeout : Z) (w : World) (fuel : nat) :
  timeout <= 0 ->
  waitForRelay env (S fuel) mon src tx (Some timeout) w
  = Some (Err TimeoutWaitingForRelay, w).
Proof.
  intros Hle. unfold waitForRelay.
  change (default (5 * 60 * 1000) (Some timeout)) with timeout.
  cbn [waitForRelay_loop].
  destruct (Z.ltb_spec (now w - now w) timeout); [lia|reflexivity].
Qed.

(** X11.  An error of a poll ends [waitForRelay] with that error, not with
    the timeout: on a chain without a client, or for a transaction without
    a sent-message event, the first poll's error is what the caller gets. *)
Theorem waitForRelay_propagates_error (mon : CrossChainMonitor) (src : Z)
    (tx : Hash) (timeoutMs : option Z) (w w1 : World) (e : Error) (fuel : nat) :
  0 < default (5 * 60 * 1000) timeoutMs ->
  monitorMessage env mon src tx w = (Err e, w1) ->
  waitForRelay env (S fuel) mon src tx timeoutMs w = Some (Err e, w1).
Proof.
  intros Hpos Hpoll. unfold waitForRelay. cbn [waitForRelay_loop].
  destruct (Z.ltb_spec (now w - now w) (default (5 * 60 * 1000) timeoutMs));
    [|lia].
  now rewrite Hpoll.
Qed.

End MonitorExtras.

(** ** More on the workflow *)

Section WorkflowExtras.
Import Bytes DexRouters Provider Monitor SwapService.
Variable env : Env.

Lemma executeCrossChain_message_hash_none (p : ProductionPortoProvider)
    (source dest : Z) (target : string) (data : Hex) (w : World)
    (tx : Hash) (messageHash : option Hash) :
  fst (executeCrossChain env p source dest target data w)
  = OK (tx, messageHash) ->
  messageHash = None.
Proof.
  unfold executeCrossChain, bind, record_call.
  destruct (provider_clients p !! source) as [client|]; [|discriminate].
  destruct (await env _ _) as [[tx'|e] w1]; [|discriminate].
  destruct (await env _ _) as [[receipt|e] w2]; [|discriminate].
  cbn [ret fst]. intros [= _ <-]. apply extractMessageHashFromReceipt_none.
Qed.

(** What a run of the workflow leaves behind: the provider calls made, in
    order, and the local list of operations. *)
Lemma executeSwapBridgeSwap_frame_cases (svc : SuperchainSwapService)
    (params : SwapBridgeSwapParams) (w : World) :
  let src := sourceChain params in
  let dst := destinationChain params in
  let r := fst (executeSwapBridgeSwap_frame env svc params ([], w)) in
  let ops := fst (snd (executeSwapBridgeSwap_frame env svc params ([], w))) in
  let w' := snd (snd (executeSwapBridgeSwap_frame env svc params ([], w))) in
  exists l,
    calls w' = calls w ++ l
    /\ (l = [] \/ l = [CalledExecuteLocal src]
        \/ l = [CalledExecuteLocal src; CalledBridgeTokens src dst]
        \/ l = [CalledExecuteLocal src; CalledBridgeTokens src dst;
                CalledExecuteCrossChain src dst])
    /\ match r with
       | OK result =>
           l = [CalledExecuteLocal src; CalledBridgeTokens src dst;
                CalledExecuteCrossChain src dst]
           /\ ops = operations result
           /\ destSwapMessageHash result = None
           /\ estimatedTime result = 180
           /\ exists tx,
                operations result
                = [{| op_type := swap; op_chainId := src;
                      op_txHash := Some (sourceSwapTx result);
                      op_messageHash := None; op_status := completed |};
                   {| op_type := bridge; op_chainId := src;
                      op_txHash := Some (bridgeTx result);
                      op_messageHash := None; op_status := completed |};
                   {| op_type := cross_chain_swap; op_chainId := dst;
                      op_txHash := Some tx;
                      op_messageHash := None; op_status := pending |}]
       | Err _ => Forall (fun op => op_status op = completed) ops
       end.
Proof.
  intros src dst r ops w'. subst r ops w' src dst.
  destruct (executeSwapBridgeSwap_frame env svc params ([], w))
    as [r [ops w']] eqn:E.
  cbn [fst snd]. revert E.
  unfold executeSwapBridgeSwap_frame.
  unfold bind at 1. unfold in_world at 1. unfold Date_now at 1. cbn [snd fst].
  unfold bind at 1. unfold lift at 1.
  destruct (resolveTokenAddress (sourceTokenIn params) _) as [tin|e];
    [|intros [= <- <- <-]; exists []; rewrite app_nil_r; auto].
  unfold bind at 1. unfold lift at 1.
  destruct (resolveTokenAddress (sourceTokenOut params) _) as [tout|e];
    [|intros [= <- <- <-]; exists []; rewrite app_nil_r; auto].
  unfold bind at 1. unfold lift at 1.
  destruct (resolveTokenAddress (destTokenIn params) _) as [din|e];
    [|intros [= <- <- <-]; exists []; rewrite app_nil_r; auto].
  unfold bind at 1. unfold lift at 1.
  destruct (resolveTokenAddress (destTokenOut params) _) as [dout|e];
    [|intros [= <- <- <-]; exists []; rewrite app_nil_r; auto].
  unfold swap_bridge_swap_steps, try_catch.
  unfold bind at 1. unfold lift at 1.
  destruct (encodeSwapData env (sourceChain params) _ _ _ _ _ _) as [data|e];
    [|intros [= <- <- <-]; exists []; rewrite app_nil_r; cbn [map]; auto].
  unfold bind at 1. unfold lift at 1.
  destruct (router_or_throw (sourceChain params)) as [rcfg|e];
    [|intros [= <- <- <-]; exists []; rewrite app_nil_r; cbn [map]; auto].
  unfold bind at 1. unfold in_world at 1. cbn [snd fst].
  pose proof (executeLocal_calls env (portoProvider svc) (sourceChain params)
                (router rcfg) 0 data w) as Hc1.
  destruct (executeLocal env _ _ _ _ _ w) as [[tx1|e] w1]; cbn [snd] in Hc1;
    [|intros [= <- <- <-];
      exists [CalledExecuteLocal (sourceChain params)]; cbn [map]; auto 6].
  unfold bind at 1. unfold push at 1. cbn [snd fst app].
  unfold bind at 1. unfold in_world at 1. cbn [snd fst].
  assert (Hc2 : calls (snd (bridgeTokens env (portoProvider svc)
                  (sourceChain params) (destinationChain params) tout
                  (sourceMinAmountOut params) w1))
                = calls w1 ++ [CalledBridgeTokens (sourceChain params)
                                 (destinationChain params)]).
  { unfold bridgeTokens, bind, record_call.
    destruct (provider_clients _ !! _); reflexivity. }
  destruct (bridgeTokens env _ _ _ _ _ w1) as [[tx2|e] w2]; cbn [snd] in Hc2;
    rewrite Hc1, <- app_assoc in Hc2; cbn [app] in Hc2;
    [|intros [= <- <- <-]; eexists; split; [exact Hc2|];
      split; [auto 6|]; repeat constructor].
  unfold bind at 1. unfold push at 1. cbn [snd fst app].
  unfold bind at 1. unfold lift at 1.
  destruct (encodeSwapData env (destinationChain params) _ _ _ _ _ _)
    as [data2|e];
    [|intros [= <- <- <-]; eexists; split; [exact Hc2|];
      split; [auto 6|]; repeat constructor].
  unfold bind at 1. unfold lift at 1.
  destruct (router_or_throw (destinationChain params)) as [rcfg2|e];
    [|intros [= <- <- <-]; eexists; split; [exact Hc2|];
      split; [auto 6|]; repeat constructor].
  unfold bind at 1. unfold in_world at 1. cbn [snd fst].
  assert (Hc3 : calls (snd (executeCrossChain env (portoProvider svc)
                  (sourceChain params) (destinationChain params)
                  (router rcfg2) data2 w2))
                = calls w2 ++ [CalledExecuteCrossChain (sourceChain params)
                                 (destinationChain params)]).
  { unfold executeCrossChain, bind, record_call.
    destruct (provider_clients _ !! _); [|reflexivity].
    unfold await. cbn [now set_now add_call snd].
    destruct (write_crossChainExecute env _ _ _ _ _ _); [|reflexivity].
    cbn [snd]. destruct (waitForTransactionReceipt env _ _ _); reflexivity. }
  pose proof (executeCrossChain_message_hash_none (portoProvider svc)
                (sourceChain params) (destinationChain params)
                (router rcfg2) data2 w2) as Hmh.
  destruct (executeCrossChain env _ _ _ _ _ w2) as [[[tx3 mh]|e] w3];
    cbn [snd fst] in Hc3, Hmh;
    rewrite Hc2, <- app_assoc in Hc3; cbn [app] in Hc3;
    [|intros [= <- <- <-]; eexists; split; [exact Hc3|];
      split; [auto 6|]; repeat constructor].
  specialize (Hmh tx3 mh eq_refl). subst mh.
  unfold bind, push, get_operations, ret. cbn [snd fst app].
  intros [= <- <- <-].
  eexists. split; [exact Hc3|]. split; [auto 6|].
  cbn [operations destSwapMessageHash estimatedTime sourceSwapTx bridgeTx].
  split; [reflexivity|]. split; [reflexivity|]. split; [reflexivity|].
  split; [reflexivity|]. eexists. reflexivity.
Qed.

(** X13.  A run of [executeSwapBridgeSwap] that succeeds has called the
    provider three times, in the order swap, bridge, cross-chain call; its
    result lists the three operations in that order, the first two
    completed and the last pending on the destination chain, estimates
    180 seconds, and carries no message hash. *)
Theorem executeSwapBridgeSwap_success (svc : SuperchainSwapService)
    (params : SwapBridgeSwapParams) (w : World)
    (result : SwapBridgeSwapResult) :
  fst (executeSwapBridgeSwap env svc params w) = OK result ->
  let src := sourceChain params in
  let dst := destinationChain params in
  calls (snd (executeSwapBridgeSwap env svc params w))
  = calls w ++ [CalledExecuteLocal src; CalledBridgeTokens src dst;
                CalledExecuteCrossChain src dst]
  /\ destSwapMessageHash result = None
  /\ estimatedTime result = 180
  /\ cross_chain_swap_chain result = dst
  /\ exists tx,
       operations result
       = [{| op_type := swap; op_chainId := src;
             op_txHash := Some (sourceSwapTx result);
             op_messageHash := None; op_status := completed |};
          {| op_type := bridge; op_chainId := src;
             op_txHash := Some (bridgeTx result);
             op_messageHash := None; op_status := completed |};
          {| op_type := cross_chain_swap; op_chainId := dst;
             op_txHash := Some tx;
             op_messageHash := None; op_status := pending |}].
Proof.
  intros Hok src dst.
  pose proof (executeSwapBridgeSwap_frame_cases svc params w) as Hcases.
  unfold executeSwapBridgeSwap in *. cbn zeta in Hcases.
  destruct (executeSwapBridgeSwap_frame env svc params ([], w))
    as [r [ops w']].
  cbn [fst snd] in *. subst r.
  destruct Hcases as (l & Hcalls & _ & -> & _ & Hmh & Het & tx & Hops).
  split; [exact Hcalls|]. split; [exact Hmh|]. split; [exact Het|].
  split; [|exists tx; exact Hops].
  unfold cross_chain_swap_chain. rewrite Hops. reflexivity.
Qed.

(** X14.  Whatever happens, the steps run in order and stop at the first
    failure: the provider calls made are an initial part of swap, bridge,
    cross-chain call; and when an error is caught no operation in the
    local list is pending, so the marking of failed operations in the
    [catch] block changes nothing. *)
Theorem executeSwapBridgeSwap_fail_fast (svc : SuperchainSwapService)
    (params : SwapBridgeSwapParams) (w : World) :
  let src := sourceChain params in
  let dst := destinationChain params in
  let ops := fst (snd (executeSwapBridgeSwap_frame env svc params ([], w))) in
  (exists l,
     calls (snd (executeSwapBridgeSwap env svc params w)) = calls w ++ l
     /\ (l = [] \/ l = [CalledExecuteLocal src]
         \/ l = [CalledExecuteLocal src; CalledBridgeTokens src dst]
         \/ l = [CalledExecuteLocal src; CalledBridgeTokens src dst;
                 CalledExecuteCrossChain src dst]))
  /\ (is_OK (fst (executeSwapBridgeSwap env svc params w)) = false ->
      Forall (fun op => op_status op = completed) ops
      /\ returned_operations (fst (executeSwapBridgeSwap env svc params w))
         = None).
Proof.
  intros src dst ops. subst ops.
  pose proof (executeSwapBridgeSwap_frame_cases svc params w) as Hcases.
  unfold executeSwapBridgeSwap. cbn zeta in Hcases.
  destruct (executeSwapBridgeSwap_frame env svc params ([], w))
    as [r [ops w']].
  cbn [fst snd] in *.
  destruct Hcases as (l & Hcalls & Hl & Hr).
  split; [exists l; now split|].
  destruct r as [result|e]; [discriminate|]. intros _. now split.
Qed.

Lemma monitorSwapBridgeSwap_total (svc : SuperchainSwapService)
    (result : SwapBridgeSwapResult) (w : World) :
  exists l t,
    monitorSwapBridgeSwap env svc result w = (OK l, set_now t w)
    /\ now w <= t /\ (length l <= 1)%nat.
Proof.
  unfold monitorSwapBridgeSwap.
  destruct (destSwapMessageHash result) as [h|].
  - unfold try_catch, bind, ret.
    destruct (reads_only_monitorMessage env (monitor svc)
                (cross_chain_swap_chain result) h w) as (t & Ht & Hw).
    destruct (monitorMessage env (monitor svc) (cross_chain_swap_chain result)
                h w) as [[st|e] w1]; cbn [snd] in Hw; subst w1.
    + exists [st], t. repeat split; [exact Ht|cbn; lia].
    + exists [], t. repeat split; [exact Ht|cbn; lia].
  - exists [], (now w). unfold ret. split; [now destruct w|]. split; cbn; lia.
Qed.

(** X15.  [monitorSwapBridgeSwap] never throws: it catches the error of
    the monitor and answers with at most one status, having only read. *)
Theorem monitorSwapBridgeSwap_never_throws (svc : SuperchainSwapService)
    (result : SwapBridgeSwapResult) (w : World) :
  exists statuses t,
    monitorSwapBridgeSwap env svc result w = (OK statuses, set_now t w)
    /\ now w <= t /\ (length statuses <= 1)%nat
    /\ (destSwapMessageHash result = None -> statuses = [])
    /\ (forall h e,
          destSwapMessageHash result = Some h ->
          fst (monitorMessage env (monitor svc)
                 (cross_chain_swap_chain result) h w) = Err e ->
          statuses = []).
Proof.
  destruct (monitorSwapBridgeSwap_total svc result w)
    as (l & t & Hrun & Ht & Hlen).
  exists l, t. split; [exact Hrun|]. split; [exact Ht|]. split; [exact Hlen|].
  split.
  - intros Hnone. unfold monitorSwapBridgeSwap in Hrun. rewrite Hnone in Hrun.
    now injection Hrun as <- _.
  - intros h e Hsome Herr. unfold monitorSwapBridgeSwap in Hrun.
    rewrite Hsome in Hrun. unfold try_catch, bind, ret in Hrun.
    destruct (monitorMessage env (monitor svc) (cross_chain_swap_chain result)
                h w) as [r w1].
    cbn [fst] in Herr. subst r. now injection Hrun as <- _.
Qed.

Lemma waitForCompletion_loop_ends (svc : SuperchainSwapService)
    (result : SwapBridgeSwapResult) (timeout start : Z) (fuel : nat)
    (w : World) :
  (0 < fuel)%nat ->
  timeout - (now w - start) <= 5000 * (Z.of_nat fuel - 1) ->
  exists b w',
    waitForCompletion_loop env fuel svc result timeout start w
    = Some (OK b, w').
Proof.
  revert w. induction fuel as [|fuel IH]; intros w Hpos Hrem; [lia|].
  cbn [waitForCompletion_loop].
  destruct (Z.ltb_spec (now w - start) timeout) as [Hlt|Hge]; [|eauto].
  destruct (monitorSwapBridgeSwap_total svc result w)
    as (l & t & Hrun & Ht & _).
  rewrite Hrun.
  destruct (forallb is_relayed l); [eauto|].
  destruct (existsb is_failed l); [eauto|].
  apply IH; [lia|]. unfold sleep. cbn [snd now set_now]. lia.
Qed.

(** X16.  [waitForCompletion] ends and never throws: within the turns its
    budget allows it returns a boolean; with a timeout that is not
    positive it returns false at once, without a poll. *)
Theorem waitForCompletion_ends (svc : SuperchainSwapService)
    (result : SwapBridgeSwapResult) (timeoutMs : option Z) (w : World)
    (fuel : nat) :
  (rounds_bound (default 300000%Z timeoutMs) 5000 <= fuel)%nat ->
  (exists b w',
     waitForCompletion env fuel svc result timeoutMs w = Some (OK b, w'))
  /\ (default 300000 timeoutMs <= 0 ->
      waitForCompletion env fuel svc result timeoutMs w = Some (OK false, w)).
Proof.
  intros Hfuel.
  destruct (rounds_bound_enough (default 300000 timeoutMs) 5000 fuel
              ltac:(lia) Hfuel) as [Hpos Hle].
  unfold waitForCompletion. split.
  - apply waitForCompletion_loop_ends; [exact Hpos|lia].
  - intros Hnone. destruct fuel as [|fuel]; [lia|].
    cbn [waitForCompletion_loop].
    destruct (Z.ltb_spec (now w - now w) (default 300000 timeoutMs));
      [lia|reflexivity].
Qed.

(** X17.  Every result [executeSwapBridgeSwap] returns makes
    [waitForCompletion] answer true on its first turn, for any positive
    timeout, without reading a chain: the result has no message hash, so
    nothing is monitored. *)
Theorem waitForCompletion_after_executeSwapBridgeSwap
    (svc : SuperchainSwapService) (params : SwapBridgeSwapParams)
    (w0 w : World) (result : SwapBridgeSwapResult) (timeoutMs : option Z)
    (fuel : nat) :
  fst (executeSwapBridgeSwap env svc params w0) = OK result ->
  0 < default 300000 timeoutMs ->
  waitForCompletion env (S fuel) svc result timeoutMs w = Some (OK true, w).
Proof.
  intros Hok Hpos.
  pose proof (executeSwapBridgeSwap_frame_cases svc params w0) as Hcases.
  unfold executeSwapBridgeSwap in Hok. cbn zeta in Hcases.
  destruct (executeSwapBridgeSwap_frame env svc params ([], w0))
    as [r [ops w']].
  cbn [fst snd] in *. subst r.
  destruct Hcases as (l & _ & _ & _ & _ & Hmh & _).
  unfold waitForCompletion. cbn [waitForCompletion_loop].
  destruct (Z.ltb_spec (now w - now w) (default 300000 timeoutMs)); [|lia].
  unfold monitorSwapBridgeSwap. rewrite Hmh. reflexivity.
Qed.

End WorkflowExtras.

(** ** Routers, tokens and batches *)

Section RouterExtras.
Import Bytes DexRouters Provider Monitor SwapService.
Variable env : Env.
Local Open Scope string_scope.

Ltac split_chain p :=
  repeat (destruct p as [p|p|]; cbn; try discriminate; try tauto).

Lemma DEX_ROUTERS_cases (c : Z) (cfg : RouterConfig) :
  DEX_ROUTERS c = Some cfg ->
  (c = 10 /\ router_type cfg = "velodrome")
  \/ (c = 8453 /\ router_type cfg = "aerodrome")
  \/ (c = 1301 /\ router_type cfg = "uniswap-v4")
  \/ ((c = 901 \/ c = 902) /\ router_type cfg = "uniswap-v3").
Proof.
  unfold DEX_ROUTERS. destruct c as [|p|p]; try discriminate.
  split_chain p; intros [= <-]; cbn; tauto.
Qed.


Lemma DEX_ROUTERS_none (c : Z) :
  c <> 10 -> c <> 8453 -> c <> 1301 -> c <> 901 -> c <> 902 ->
  DEX_ROUTERS c = None.
Proof.
  intros. destruct (DEX_ROUTERS c) as [cfg|] eqn:E; [|reflexivity].
  apply DEX_ROUTERS_cases in E. intuition congruence.
Qed.


(** X19.  [encodeSwapData] picks the call by the chain alone: the
    single-hop [exactInputSingle] with fee 3000 on chains 901, 902 and
    1301, the route call [swapExactTokensForTokens] with the Velodrome
    factory on chains 10 and 8453, and 'No router config' on any other
    chain; the 'Unsupported DEX type' branch is never taken. *)
Theorem encodeSwapData_selection (c : Z) (tokenIn tokenOut : string)
    (amountIn amountOutMin : Z) (recipient_ : string) (deadline_ : Z) :
  let call :=
    encodeSwapData env c tokenIn tokenOut amountIn amountOutMin recipient_
      deadline_ in
  (c = 901 \/ c = 902 \/ c = 1301 ->
   call = encodeFunctionData env
            (ExactInputSingle tokenIn tokenOut 3000 recipient_ deadline_
               amountIn amountOutMin 0))
  /\ (c = 10 \/ c = 8453 ->
      call = encodeFunctionData env
               (SwapExactTokensForTokens amountIn amountOutMin tokenIn
                  tokenOut false "0x25CbdDb98b35ab1FF77413456B31EC81A6B6B746"
                  recipient_ deadline_))
  /\ (c <> 10 -> c <> 8453 -> c <> 1301 -> c <> 901 -> c <> 902 ->
      call = Err (NoRouterConfig c)).
Proof.
  intros call. subst call. unfold encodeSwapData, getRouterConfig.
  split; [|split].
  - intros [-> | [-> | ->]]; reflexivity.
  - intros [-> | ->]; reflexivity.
  - intros. now rewrite DEX_ROUTERS_none.
Qed.

End RouterExtras.

Section BatchExtras.
Import Bytes DexRouters Provider Monitor SwapService.
Variable env : Env.

(** Every operation of a group has the key of the group as its chain. *)
Lemma group_insert_same_chain (op : CrossChainCall)
    (grouped : list (Z * list CrossChainCall)) :
  Forall (fun g => Forall (fun o => call_chainId o = fst g) (snd g)) grouped ->
  Forall (fun g => Forall (fun o => call_chainId o = fst g) (snd g))
    (group_insert op grouped).
Proof.
  induction 1 as [|[k ops] rest Hg Hrest IH]; cbn [group_insert].
  - repeat constructor.
  - destruct (Z.eqb_spec k (call_chainId op)) as [->|_].
    + constructor; [|assumption]. cbn [fst snd] in *.
      apply Forall_app. split; [assumption|]. now repeat constructor.
    + constructor; assumption.
Qed.

Lemma groupOperationsByChain_same_chain (operations : list CrossChainCall) :
  Forall (fun g => Forall (fun o => call_chainId o = fst g) (snd g))
    (groupOperationsByChain operations).
Proof.
  unfold groupOperationsByChain.
  induction operations as [|op ops IH] using rev_ind; [constructor|].
  rewrite fold_left_app. cbn [fold_left]. now apply group_insert_same_chain.
Qed.

Lemma executeCrossChain_calls (p : ProductionPortoProvider) (source dest : Z)
    (target : string) (data : Hex) (w : World) :
  calls (snd (executeCrossChain env p source dest target data w))
  = calls w ++ [CalledExecuteCrossChain source dest].
Proof.
  unfold executeCrossChain, bind, record_call.
  destruct (provider_clients p !! source); [|reflexivity].
  unfold await. cbn [now set_now add_call snd].
  destruct (write_crossChainExecute env _ _ _ _ _ _); [|reflexivity].
  cbn [snd]. destruct (waitForTransactionReceipt env _ _ _); reflexivity.
Qed.

Lemma collect_calls {A B} (P : ProviderCall -> Prop) (f : A -> M World B)
    (xs : list A) :
  Forall (fun x => forall w, exists l,
            calls (snd (f x w)) = calls w ++ l /\ Forall P l) xs ->
  forall w, exists l,
    calls (snd (collect f xs w)) = calls w ++ l /\ Forall P l.
Proof.
  induction 1 as [|x rest Hx _ IH]; intros w; cbn [collect].
  - exists []. unfold ret. cbn [snd]. now rewrite app_nil_r.
  - unfold bind at 1. destruct (Hx w) as (l1 & Hl1 & HP1).
    destruct (f x w) as [[b|e] w1]; cbn [snd] in Hl1; [|eauto].
    unfold bind. destruct (IH w1) as (l2 & Hl2 & HP2).
    destruct (collect f rest w1) as [[bs|e] w2]; cbn [snd ret] in *;
      exists (l1 ++ l2); rewrite Hl2, Hl1, app_assoc;
      (split; [reflexivity|apply Forall_app; now split]).
Qed.

(** X20.  [executeCrossChainBatch] groups the operations by their own
    chain and passes the key of the group as the source chain: every call
    it makes on [executeCrossChain] has the same chain as source and as
    destination. *)
Theorem executeCrossChainBatch_source_is_destination
    (p : ProductionPortoProvider) (operations : list CrossChainCall)
    (w : World) :
  exists l,
    calls (snd (executeCrossChainBatch env p operations w)) = calls w ++ l
    /\ Forall (fun c => exists k, c = CalledExecuteCrossChain k k) l.
Proof.
  unfold executeCrossChainBatch, bind.
  destruct (collect_calls (fun c => exists k, c = CalledExecuteCrossChain k k)
              (fun group : Z * list CrossChainCall =>
                 collect
                   (fun op => executeCrossChain env p (fst group)
                                (call_chainId op) (call_target op)
                                (call_data op)) (snd group))
              (groupOperationsByChain operations)) with (w := w)
    as (l & Hl & HP).
  - pose proof (groupOperationsByChain_same_chain operations) as Hsame.
    induction Hsame as [|[k ops] rest Hg _ IH]; constructor; [|exact IH].
    cbn [fst snd] in *. apply collect_calls.
    induction Hg as [|op ops Hop _ IHops]; constructor; [|exact IHops].
    intros w0. eexists. split; [apply executeCrossChain_calls|].
    constructor; [|constructor]. exists k. now rewrite Hop.
  - destruct (collect _ (groupOperationsByChain operations) w)
      as [[rs|e] w1]; cbn [snd ret] in *; eauto.
Qed.

Lemma add_to_group_absent (op : CrossChainCall)
    (grouped : list (Z * list CrossChainCall)) :
  ~ In (call_chainId op) (map fst grouped) ->
  map (add_to_group op) grouped = grouped.
Proof.
  induction grouped as [|[k ops] rest IH]; [reflexivity|].
  cbn [map fst In]. intros Hnot. unfold add_to_group at 1. cbn [fst snd].
  destruct (Z.eqb_spec k (call_chainId op)) as [->|_]; [tauto|].
  rewrite IH by tauto. reflexivity.
Qed.

Lemma group_insert_closed (op : CrossChainCall)
    (grouped : list (Z * list CrossChainCall)) :
  List.NoDup (map fst grouped) ->
  group_insert op grouped
  = map (add_to_group op) grouped
    ++ (if existsb (fun k => k =? call_chainId op) (map fst grouped)
        then [] else [(call_chainId op, [op])]).
Proof.
  induction grouped as [|[k ops] rest IH]; [reflexivity|].
  cbn [map fst]. intros Hnd. apply Stdlib.Lists.List.NoDup_cons_iff in Hnd as [Hk Hnd].
  cbn [group_insert existsb]. unfold add_to_group at 1. cbn [fst snd].
  destruct (Z.eqb_spec k (call_chainId op)) as [->|Hne]; cbn [orb].
  - rewrite add_to_group_absent by assumption. now rewrite app_nil_r.
  - now rewrite IH.
Qed.

Lemma existsb_key (k : Z) (keys : list Z) :
  existsb (fun k' => k' =? k) keys = true <-> In k keys.
Proof.
  rewrite existsb_exists. split.
  - intros (k' & Hin & Heq). apply Z.eqb_eq in Heq. now subst.
  - intros Hin. exists k. split; [assumption|apply Z.eqb_refl].
Qed.

Lemma map_fst_add_to_group (op : CrossChainCall)
    (grouped : list (Z * list CrossChainCall)) :
  map fst (map (add_to_group op) grouped) = map fst grouped.
Proof.
  induction grouped as [|[k ops] rest IH]; [reflexivity|].
  cbn [map]. rewrite IH. unfold add_to_group. cbn [fst snd].
  now destruct (k =? call_chainId op).
Qed.

(** X21.  [groupOperationsByChain] is a partition by chain that keeps the
    order: the keys are distinct; the group of a key is the list of the
    operations of that chain, in their order, and is not empty; and every
    operation's chain is a key. *)
Theorem groupOperationsByChain_partition (operations : list CrossChainCall) :
  let grouped := groupOperationsByChain operations in
  List.NoDup (map fst grouped)
  /\ Forall (fun g => snd g
                      = List.filter (fun o => call_chainId o =? fst g)
                          operations
                      /\ snd g <> []) grouped
  /\ (forall o, In o operations -> In (call_chainId o) (map fst grouped)).
Proof.
  cbn zeta. unfold groupOperationsByChain.
  induction operations as [|op ops IH] using rev_ind.
  - cbn. split; [apply List.NoDup_nil|]. split; [constructor|tauto].
  - rewrite fold_left_app. cbn [fold_left].
    destruct IH as (Hnd & Hall & Hcover).
    set (grouped := fold_left (fun g o => group_insert o g) ops []) in *.
    rewrite (group_insert_closed op grouped Hnd).
    pose proof (existsb_key (call_chainId op) (map fst grouped)) as Hkey.
    assert (Hupd : Forall
      (fun g => snd g = List.filter (fun o => call_chainId o =? fst g)
                          (ops ++ [op]) /\ snd g <> [])
      (map (add_to_group op) grouped)).
    { apply Forall_map. eapply Forall_impl; [exact Hall|].
      intros [k g] [Hg Hne]. cbn [fst snd] in *.
      unfold add_to_group. cbn [fst snd].
      destruct (Z.eqb_spec k (call_chainId op)) as [Heq|Hneq]; cbn [fst snd];
        rewrite Stdlib.Lists.List.filter_app; cbn [List.filter].
      - subst k. rewrite Z.eqb_refl, <- Hg. split; [reflexivity|].
        intros H. apply app_eq_nil in H as [_ H]. discriminate H.
      - destruct (Z.eqb_spec (call_chainId op) k) as [Heq|_]; [congruence|].
        rewrite app_nil_r. now split. }
    destruct (existsb _ (map fst grouped)) eqn:E.
    + rewrite app_nil_r, map_fst_add_to_group.
      split; [exact Hnd|]. split; [exact Hupd|].
      intros o Hin. apply in_app_or in Hin as [Hin|[<-|[]]]; [now apply Hcover|].
      now apply Hkey.
    + assert (Hnew : ~ In (call_chainId op) (map fst grouped)).
      { intros Hin. apply Hkey in Hin. congruence. }
      rewrite map_app, map_fst_add_to_group. cbn [map fst].
      split; [|split].
      * apply Stdlib.Lists.List.NoDup_app; [exact Hnd| |].
        -- apply List.NoDup_cons; [intros []|apply List.NoDup_nil].
        -- intros k Hk [<-|[]]. contradiction.
      * apply Forall_app. split; [exact Hupd|].
        constructor; [|constructor]. cbn [fst snd]. split; [|discriminate].
        rewrite Stdlib.Lists.List.filter_app. cbn [List.filter].
        rewrite Z.eqb_refl.
        assert (Hnone : List.filter
          (fun o => call_chainId o =? call_chainId op) ops = []).
        { clearbody grouped. clear - Hcover Hnew.
          induction ops as [|o ops IH]; [reflexivity|].
          cbn [List.filter].
          destruct (Z.eqb_spec (call_chainId o) (call_chainId op)) as [Heq|_].
          - exfalso. apply Hnew. rewrite <- Heq. apply Hcover. now left.
          - apply IH. intros o' Ho'. apply Hcover. now right. }
        now rewrite Hnone.
      * intros o Hin. apply in_or_app.
        apply in_app_or in Hin as [Hin|[<-|[]]];
          [left; now apply Hcover|right; now left].
Qed.

End BatchExtras.

(** ** Chain ids beyond the safe integers *)

Section PrecisionExtras.
Import Bytes JsNumber Abi Codec Scenario.

Lemma round_double_even (n : Z) :
  2 ^ 53 <= n -> Z.even (round_double n) = true.
Proof.
  intros Hn. unfold round_double.
  destruct (Z.ltb_spec n (2 ^ 53)); [lia|].
  assert (He : 1 <= Z.log2 n - 52).
  { pose proof (Z.log2_le_mono (2 ^ 53) n Hn) as Hl.
    rewrite Z.log2_pow2 in Hl by lia. lia. }
  set (e := Z.log2 n - 52) in *.
  replace (2 ^ e) with (2 * 2 ^ (e - 1)).
  2:{ rewrite <- Z.pow_succ_r by lia. f_equal. lia. }
  rewrite Z.mul_assoc, Z.even_mul, Z.even_mul. cbn. 
  now rewrite orb_true_r.
Qed.

(** X22.  The destination is read with [parseInt], as a double: a chain id
    of 2^53 or more is rounded to the nearest double, and an odd one is
    never decoded exactly. *)
Theorem decodeSentMessage_large_destination (log : Log) (sig t2 t3 : Hex)
    (rest : list Hex) (n : Z) :
  log_topics log = sig :: word n :: t2 :: t3 :: rest ->
  t3 <> [] ->
  2 ^ 53 <= n < 2 ^ 256 ->
  Z.odd n = true ->
  exists m,
    decodeSentMessage log = OK m
    /\ destination m = Num (round_double n)
    /\ round_double n <> n.
Proof.
  intros Htopics Ht3 Hn Hodd. unfold decodeSentMessage. rewrite Htopics.
  cbn [lookup list_lookup].
  destruct t3 as [|b t3]; [now elim Ht3|].
  eexists. split; [reflexivity|]. cbn [destination]. split.
  - unfold parseInt16.
    destruct (word n) as [|b0 bs] eqn:E; [now apply word_not_nil in E|].
    rewrite <- E, be_value_word; [reflexivity|]. unfold uint256. lia.
  - intros Heq. pose proof (round_double_even n ltac:(lia)) as Hev.
    rewrite Heq in Hev. rewrite <- Z.negb_odd, Hodd in Hev. discriminate.
Qed.

Lemma decodeSentMessage_large_destination_witness :
  exists m,
    decodeSentMessage
      {| log_address := messenger;
         log_topics := [SENT_MESSAGE_SIGNATURE; word (2 ^ 53 + 1); word 0;
                        word 7];
         log_data := []; log_blockNumber := None; log_logIndex := None;
         log_transactionHash := None |} = OK m
    /\ destination m = Num (2 ^ 53).
Proof.
  destruct (decodeSentMessage_large_destination
              {| log_address := messenger;
                 log_topics := [SENT_MESSAGE_SIGNATURE; word (2 ^ 53 + 1);
                                word 0; word 7];
                 log_data := []; log_blockNumber := None; log_logIndex := None;
                 log_transactionHash := None |}
              SENT_MESSAGE_SIGNATURE (word 0) (word 7) [] (2 ^ 53 + 1))
    as (m & Hm & Hd & _).
  - reflexivity.
  - apply word_not_nil.
  - vm_compute. split; [discriminate|reflexivity].
  - reflexivity.
  - exists m. split; [exact Hm|]. rewrite Hd. vm_compute. reflexivity.
Defined.

End PrecisionExtras.

(** ** The provider's cross-chain call *)

Section ProviderExtras.
Import Bytes Provider.
Variable env : Env.

(** X12.  [executeCrossChain] never returns a message hash: it looks for a
    log whose first topic is the placeholder text '0x...', which no topic
    is; a call that succeeds returns the transaction hash alone. *)
Theorem executeCrossChain_no_message_hash (p : ProductionPortoProvider)
    (source dest : Z) (target : string) (data : Hex) (w : World)
    (tx : Hash) (messageHash : option Hash) :
  fst (executeCrossChain env p source dest target data w)
  = OK (tx, messageHash) ->
  messageHash = None
  /\ calls (snd (executeCrossChain env p source dest target data w))
     = calls w ++ [CalledExecuteCrossChain source dest].
Proof.
  intros Hok. split.
  - now apply (executeCrossChain_message_hash_none env p source dest target
                 data w tx).
  - apply executeCrossChain_calls.
Qed.

End ProviderExtras.

(** ** The properties above, on the two Supersim chains *)

Section ExtraWitnesses.
Import Bytes Keccak JsNumber Abi Codec Monitor DexRouters Provider SwapService
  Scenario.

Lemma decodeSentMessage_round_trip_witness :
  decodeSentMessage sentLog = OK msgAA.
Proof.
  apply (decodeSentMessage_round_trip 902 7
           (unhex "1111111111111111111111111111111111111111")
           (unhex "2222222222222222222222222222222222222222")
           (unhex "010203") messenger (Some 5) (Some 0) (Some txAA)).
  - vm_compute. split; [discriminate|reflexivity].
  - vm_compute. split; [discriminate|reflexivity].
  - vm_compute. reflexivity.
  - vm_compute. reflexivity.
  - vm_compute. reflexivity.
Defined.

Lemma monitorMessage_destination_unreachable_witness :
  exists st,
    fst (monitorMessage destination_down monAB 901 txAA start) = OK st
    /\ status st = sent /\ error st = None.
Proof.
  destruct (monitorMessage_destination_unreachable destination_down monAB 901
              txAA start msgAA idAA hashAA 902
              (createPublicClient (cfg_chain chainB) (cfg_rpcUrl chainB))
              chainB (RpcError "connection refused"))
    as (st & Hst & _ & Hs & _ & He).
  - apply observes_txAA; intros; vm_compute; reflexivity.
  - reflexivity.
  - vm_compute; reflexivity.
  - vm_compute; reflexivity.
  - vm_compute; reflexivity.
  - exists st. split; [exact Hst|]. split; [exact Hs|exact He].
Defined.

Lemma startMonitoring_starts_timers_witness :
  map timer_handle (timers (snd (startMonitoring (Some 0%nat) (monAB, start))))
  = [0%nat; 1%nat]
  /\ map timer_period
       (timers (snd (startMonitoring (Some 0%nat) (monAB, start))))
     = [5000; 5000].
Proof.
  rewrite (startMonitoring_starts_timers (Some 0%nat) monAB start).
  - split; vm_compute; reflexivity.
  - vm_compute. reflexivity.
Defined.

Lemma stopMonitoring_undoes_start_witness :
  fst (stopMonitoring (startMonitoring (Some 0%nat) (monAB, start))) = monAB
  /\ timers (snd (stopMonitoring (startMonitoring (Some 0%nat) (monAB, start))))
     = [].
Proof.
  destruct (stopMonitoring_undoes_start (Some 0%nat) monAB start)
    as (Hmon & Htimers & _).
  - vm_compute. reflexivity.
  - vm_compute. reflexivity.
  - constructor.
  - split; [exact Hmon|exact Htimers].
Defined.

Lemma waitForRelay_no_budget_witness :
  waitForRelay once_relayed 1 monAB 901 txAA (Some 0) start
  = Some (Err TimeoutWaitingForRelay, start).
Proof. apply waitForRelay_no_budget. lia. Defined.

Lemma waitForRelay_propagates_error_witness :
  waitForRelay in_flight 1 monAB 7 txAA None start
  = Some (Err (NoClientConfigured 7), start)
  /\ exists w',
       waitForRelay in_flight 1 monAB 901 txBB (Some 1000) start
       = Some (Err NoSentMessageEvents, w').
Proof.
  split.
  - apply waitForRelay_propagates_error; vm_compute; reflexivity.
  - eexists. apply waitForRelay_propagates_error; vm_compute; reflexivity.
Defined.

Lemma executeCrossChain_no_message_hash_witness :
  exists tx w',
    executeCrossChain in_flight provider 901 902
      "0x2222222222222222222222222222222222222222" (unhex "414bf389") start
    = (OK (tx, None), w')
    /\ calls w' = [CalledExecuteCrossChain 901 902].
Proof.
  destruct (executeCrossChain in_flight provider 901 902
              "0x2222222222222222222222222222222222222222" (unhex "414bf389")
              start) as [[[tx mh]|e] w'] eqn:E.
  - destruct (executeCrossChain_no_message_hash in_flight provider 901 902
                "0x2222222222222222222222222222222222222222" (unhex "414bf389")
                start tx mh) as [-> Hcalls].
    + now rewrite E.
    + rewrite E in Hcalls. exists tx, w'. split; [reflexivity|exact Hcalls].
  - vm_compute in E. discriminate E.
Defined.

Lemma executeSwapBridgeSwap_success_witness :
  exists result,
    fst (executeSwapBridgeSwap in_flight service swapParams start) = OK result
    /\ calls (snd (executeSwapBridgeSwap in_flight service swapParams start))
       = [CalledExecuteLocal 901; CalledBridgeTokens 901 902;
          CalledExecuteCrossChain 901 902]
    /\ destSwapMessageHash result = None.
Proof.
  destruct (fst (executeSwapBridgeSwap in_flight service swapParams start))
    as [result|e] eqn:E.
  - exists result. split; [reflexivity|].
    destruct (executeSwapBridgeSwap_success in_flight service swapParams start
                result E) as (Hcalls & Hmh & _).
    split; [exact Hcalls|exact Hmh].
  - vm_compute in E. discriminate E.
Defined.

Lemma waitForCompletion_ends_witness :
  exists w',
    waitForCompletion in_flight 2 service trackedResult (Some 3000) start
    = Some (OK false, w').
Proof.
  destruct (waitForCompletion_ends in_flight service trackedResult (Some 3000)
              start 2) as [(b & w' & Hrun) _].
  - vm_compute. lia.
  - assert (Hfalse : exists w2,
              waitForCompletion in_flight 2 service trackedResult (Some 3000)
                start = Some (OK false, w2))
      by (eexists; vm_compute; reflexivity).
    destruct Hfalse as [w2 Hfalse]. now exists w2.
Defined.

Lemma waitForCompletion_after_executeSwapBridgeSwap_witness :
  exists result,
    fst (executeSwapBridgeSwap in_flight service swapParams start) = OK result
    /\ forall w,
         waitForCompletion in_flight 1 service result None w
         = Some (OK true, w).
Proof.
  destruct (fst (executeSwapBridgeSwap in_flight service swapParams start))
    as [result|e] eqn:E.
  - exists result. split; [reflexivity|]. intros w.
    apply (waitForCompletion_after_executeSwapBridgeSwap in_flight service
             swapParams start w result None 0 E).
    reflexivity.
  - vm_compute in E. discriminate E.
Defined.

End ExtraWitnesses.
